(** * Notification dispatch, dedup ledger and worker status of scribe-backend

    A shallow embedding of [utils/notifications.py] (class [Notifications])
    and of the [/status] computation in [routers/healthcheck.py], with the
    properties the specification states about them. *)

From Stdlib Require Import ZArith NArith String Ascii List Lia DecimalString.
From stdpp Require Import base option list strings gmap fin_maps.

Local Open Scope string_scope.
Local Open Scope list_scope.

(** ** Python values used by the embedding *)

(** Exceptions (subclasses of [Exception]) that the modelled code can meet.
    [TransportError] stands for whatever [ssl] and [smtplib] raise. *)
Inductive exn : Type :=
  | KeyError (key : string)
  | IndexError (msg : string)
  | ValueError (msg : string)
  | TypeError (msg : string)
  | TransportError (msg : string).

(** [str(e)] *)
Definition str_exn (e : exn) : string :=
  match e with
  | KeyError key => "'" +:+ key +:+ "'"
  | IndexError msg | ValueError msg | TypeError msg | TransportError msg => msg
  end.

(** Result of running a piece of code: it returns, it raises, or the model
    does not determine it ([Stuck]: loop fuel exhausted, or a feature of
    Python outside the modelled fragment). *)
Inductive outcome (A : Type) : Type :=
  | Ret (a : A)
  | Raise (e : exn)
  | Stuck.
Arguments Ret {A} a.
Arguments Raise {A} e.
Arguments Stuck {A}.

(** The line feed of the f-string in [__notification_send_email]. *)
Definition nl : string := String "010"%char EmptyString.

(** [sep.join(l)] *)
Definition join (sep : string) (l : list string) : string := String.concat sep l.

(** Truthiness of an optional string setting: [None] and the empty string
    are false. *)
Definition truthy (o : option string) : bool :=
  match o with
  | Some s => negb (String.eqb s "")
  | None => false
  end.

(** ** Settings ([utils.settings], consumed) *)

(** A notification template: the dict with keys ["subject"] and
    ["message"]. *)
Record mail_template : Type := {
  tpl_subject : string;
  tpl_message : string
}.

Record Settings : Type := {
  API_SMTP_HOST : option string;
  API_SMTP_PORT : Z;
  API_SMTP_USERNAME : option string;
  API_SMTP_PASSWORD : option string;
  API_SMTP_SENDER : string;
  NOTIFICATION_MAIL_UPDATED : mail_template;
  NOTIFICATION_MAIL_TRANSCRIPTION_FINISHED : mail_template;
  NOTIFICATION_MAIL_TRANSCRIPTION_FAILED : mail_template;
  NOTIFICATION_MAIL_TRANSCRIPTION_DELETED : mail_template;
  NOTIFICATION_MAIL_TRANSCRIPTION_TO_BE_DELETED : mail_template;
  NOTIFICATION_MAIL_NEW_USER_CREATED : mail_template;
  NOTIFICATION_MAIL_ACCOUNT_ACTIVATED : mail_template;
  NOTIFICATION_MAIL_QUOTA_ALERT : mail_template;
  NOTIFICATION_MAIL_GROUP_QUOTA_ALERT : mail_template;
  NOTIFICATION_MAIL_WEEKLY_USAGE_REPORT : mail_template
}.

(** ** The Delivery Transport ([ssl], [smtplib], consumed) *)

(** One call into the transport, with its arguments. *)
Inductive smtp_call : Type :=
  | create_default_context
  | SMTP (host : option string) (port : Z)
  | starttls
  | login (user password : option string)
  | sendmail (from_addr : string) (to_addrs : list string) (msg : string).

(** What a call does: it fails with an exception or not, and it takes some
    time. *)
Record reply : Type := {
  failure : option exn;
  elapsed : N
}.

(** A transport is any deterministic reaction to a call, given the calls
    made so far (oldest first). *)
Definition transport : Type := list smtp_call -> smtp_call -> reply.

(** ** State of the process *)

Record job : Type := {
  to_emails : list string;
  subject : string;
  message : string
}.

Inductive level : Type := WARNING | INFO | ERROR.

(** A started [threading.Timer]: when it was started and its interval. *)
Record timer : Type := {
  armed_at : N;
  interval : N
}.

Definition fires_at (t : timer) : N := (armed_at t + interval t)%N.

(** A row of the [NotificationsSent] table: the three columns the code
    sets and filters on. *)
Record NotificationsSent : Type := {
  user_id : string;
  uuid : string;
  notification_type : string
}.

Record state : Type := {
  queue : list job;                    (* self.__queue, head first *)
  log : list (level * string);         (* logger output, oldest first *)
  calls : list smtp_call;              (* transport calls, oldest first *)
  clock : N;                           (* current time, in time units *)
  timers : list timer;                 (* timers started, oldest first *)
  table : list NotificationsSent       (* committed rows, oldest first *)
}.

Definition set_queue (q : list job) (st : state) : state :=
  {| queue := q; log := log st; calls := calls st; clock := clock st;
     timers := timers st; table := table st |}.

Definition set_log (l : list (level * string)) (st : state) : state :=
  {| queue := queue st; log := l; calls := calls st; clock := clock st;
     timers := timers st; table := table st |}.

Definition set_transport (c : list smtp_call) (t : N) (st : state) : state :=
  {| queue := queue st; log := log st; calls := c; clock := t;
     timers := timers st; table := table st |}.

Definition set_timers (ts : list timer) (st : state) : state :=
  {| queue := queue st; log := log st; calls := calls st; clock := clock st;
     timers := ts; table := table st |}.

Definition set_table (rows : list NotificationsSent) (st : state) : state :=
  {| queue := queue st; log := log st; calls := calls st; clock := clock st;
     timers := timers st; table := rows |}.

(** A freshly constructed process: nothing queued, logged, sent or stored. *)
Definition initial : state :=
  {| queue := []; log := []; calls := []; clock := 0%N; timers := [];
     table := [] |}.

(** ** The monad of the embedding: state and exceptions *)

Definition M (A : Type) : Type := state -> outcome A * state.

#[global] Instance M_ret : MRet M := fun A a st => (Ret a, st).

#[global] Instance M_bind : MBind M := fun A B f m st =>
  match m st with
  | (Ret a, st') => f a st'
  | (Raise e, st') => (Raise e, st')
  | (Stuck, st') => (Stuck, st')
  end.

Definition raise {A : Type} (e : exn) : M A := fun st => (Raise e, st).

Definition stuck {A : Type} : M A := fun st => (Stuck, st).

(** [try: body except Exception as e: handler(e)] *)
Definition try_except {A : Type} (body : M A) (handler : exn -> M A) : M A :=
  fun st =>
    match body st with
    | (Raise e, st') => handler e st'
    | r => r
    end.

(** [for x in l: body(x)] *)
Fixpoint for_each {A : Type} (l : list A) (body : A -> M unit) : M unit :=
  match l with
  | [] => mret tt
  | x :: l' => body x ;; for_each l' body
  end.

(** *** Primitive effects *)

Definition logger (lv : level) (text : string) : M unit :=
  fun st => (Ret tt, set_log (log st ++ [(lv, text)]) st).

(** A call into the transport: recorded, timed, and failing as the
    transport decides. *)
Definition smtp (tr : transport) (c : smtp_call) : M unit :=
  fun st =>
    let r := tr (calls st) c in
    let st' := set_transport (calls st ++ [c]) (clock st + elapsed r)%N st in
    match failure r with
    | Some e => (Raise e, st')
    | None => (Ret tt, st')
    end.

(** [threading.Timer(interval, handler).start()] *)
Definition Timer_start (iv : N) : M unit :=
  fun st =>
    (Ret tt,
     set_timers (timers st ++ [{| armed_at := clock st; interval := iv |}]) st).

(** [len(self.__queue)] *)
Definition len_queue : M nat := fun st => (Ret (length (queue st)), st).

(** [self.__queue.popleft()] *)
Definition popleft : M job :=
  fun st =>
    match queue st with
    | [] => (Raise (IndexError "pop from an empty deque"), st)
    | j :: q => (Ret j, set_queue q st)
    end.

(** [self.__queue.append(j)] *)
Definition append (j : job) : M unit :=
  fun st => (Ret tt, set_queue (queue st ++ [j]) st).

(** [session.add(row); session.commit()] on the [NotificationsSent] table. *)
Definition session_add_commit (row : NotificationsSent) : M unit :=
  fun st => (Ret tt, set_table (table st ++ [row]) st).

(** [session.query(NotificationsSent).filter_by(...).first()] *)
Definition session_query_first (p : NotificationsSent -> bool)
  : M (option NotificationsSent) :=
  fun st => (Ret (List.find p (table st)), st).

(** An effect-free computation inside [M]. *)
Definition lift {A : Type} (o : outcome A) : M A := fun st => (o, st).

(** ** [str.format] with keyword arguments only

    The modelled fragment of the format mini-language: literal text, the
    escapes [{{] and [}}], and replacement fields [{name}].  Conversions
    ([!r]), format specifications ([:>10]) and attribute or index access
    ([a.b], [a[0]]) are outside it; the whole language is embedded
    further down, in [StringFormat]. *)

(** The values the convenience senders pass to [format].  A float is kept
    as the text [str] gives for it. *)
Inductive pyval : Type :=
  | PyStr (s : string)
  | PyInt (n : Z)
  | PyFloat (shown : string).

(** [str(v)] *)
Definition str (v : pyval) : string :=
  match v with
  | PyStr s => s
  | PyInt n => NilZero.string_of_int (Z.to_int n)
  | PyFloat shown => shown
  end.

(** What the scanner of [format] yields, left to right. *)
Inductive item : Type :=
  | Literal (c : ascii)
  | Replacement (field_name : string)
  | Malformed (msg : string)
  | Beyond.

Inductive mode : Type :=
  | Text
  | AfterOpen
  | AfterClose
  | InField (name : string).

(** A character read inside a replacement field whose name so far is
    [name]; [continue] scans the rest of the template. *)
Definition field_char (c : ascii) (name : string)
    (continue : mode -> list item) : list item :=
  if Ascii.eqb c "}" then Replacement name :: continue Text
  else if Ascii.eqb c "{" then [Malformed "unexpected '{' in field name"]
  else if Ascii.eqb c "[" || Ascii.eqb c "." || Ascii.eqb c ":" || Ascii.eqb c "!"
  then [Beyond]
  else continue (InField (name +:+ String c EmptyString)).

(** The scanner.  It stops at the first malformed place. *)
Fixpoint markup (m : mode) (s : string) : list item :=
  match s with
  | EmptyString =>
      match m with
      | Text => []
      | AfterOpen => [Malformed "Single '{' encountered in format string"]
      | AfterClose => [Malformed "Single '}' encountered in format string"]
      | InField _ => [Malformed "expected '}' before end of string"]
      end
  | String c rest =>
      match m with
      | Text =>
          if Ascii.eqb c "{" then markup AfterOpen rest
          else if Ascii.eqb c "}" then markup AfterClose rest
          else Literal c :: markup Text rest
      | AfterOpen =>
          if Ascii.eqb c "{" then Literal "{" :: markup Text rest
          else field_char c "" (fun m' => markup m' rest)
      | AfterClose =>
          if Ascii.eqb c "}" then Literal "}" :: markup Text rest
          else [Malformed "Single '}' encountered in format string"]
      | InField name => field_char c name (fun m' => markup m' rest)
      end
  end.

(** A field name that is empty or all digits is positional; the result is
    the index it denotes, as text. *)
Definition positional (name : string) : option string :=
  match NilEmpty.uint_of_string name with
  | Some d => Some (NilZero.string_of_uint (Decimal.unorm d))
  | None => None
  end.

(** Filling the fields from the keyword arguments; there are no positional
    arguments. *)
Fixpoint render (kwargs : gmap string pyval) (items : list item)
  : outcome string :=
  match items with
  | [] => Ret EmptyString
  | Literal c :: items' =>
      match render kwargs items' with
      | Ret s => Ret (String c s)
      | r => r
      end
  | Replacement name :: items' =>
      match positional name with
      | Some i =>
          Raise (IndexError ("Replacement index " +:+ i +:+
                             " out of range for positional args tuple"))
      | None =>
          match kwargs !! name with
          | None => Raise (KeyError name)
          | Some v =>
              match render kwargs items' with
              | Ret s => Ret (str v +:+ s)
              | r => r
              end
          end
      end
  | Malformed msg :: _ => Raise (ValueError msg)
  | Beyond :: _ => Stuck
  end.

(** [template.format(...)] with keyword arguments [kwargs] *)
Definition format (template : string) (kwargs : gmap string pyval)
  : outcome string :=
  render kwargs (markup Text template).

(** ** [class Notifications] *)

Section Notifications.

Variable settings : Settings.
Variable tr : transport.

(** [Notifications.add] *)
Definition add (to_emails : list string) (subject message : string) : M unit :=
  if negb (truthy (API_SMTP_HOST settings)) then
    logger WARNING
      "SMTP host is not configured. Email notifications will not be sent."
  else
    append {| to_emails := to_emails; subject := subject; message := message |}.

(** The f-string built for each recipient. *)
Definition mail_to_send (email subject message : string) : string :=
  "From: Sunet Scribe <" +:+ API_SMTP_SENDER settings +:+ ">" +:+ nl +:+
  "To: " +:+ email +:+ nl +:+
  "Subject: " +:+ subject +:+ nl +:+ nl +:+ message.

(** The body of the [try] block of [__notification_send_email]. *)
Definition send_email_body (to_emails : list string) (subject message : string)
  : M unit :=
  smtp tr create_default_context ;;
  smtp tr (SMTP (API_SMTP_HOST settings) (API_SMTP_PORT settings)) ;;
  smtp tr starttls ;;
  smtp tr (login (API_SMTP_USERNAME settings) (API_SMTP_PASSWORD settings)) ;;
  for_each to_emails (fun email =>
    smtp tr (sendmail (API_SMTP_SENDER settings) to_emails
               (mail_to_send email subject message)) ;;
    logger INFO ("Email sent to " +:+ join ", " to_emails)).

(** [Notifications.__notification_send_email] *)
Definition __notification_send_email
    (to_emails : list string) (subject message : string) : M unit :=
  try_except
    (send_email_body to_emails subject message)
    (fun e =>
       logger ERROR
         ("Error sending email to " +:+ join ", " to_emails +:+ ": " +:+
          str_exn e)).

(** The [if] of the drain loop: all three settings must be truthy. *)
Definition credentials_set : bool :=
  truthy (API_SMTP_HOST settings)
  && truthy (API_SMTP_USERNAME settings)
  && truthy (API_SMTP_PASSWORD settings).

(** The [while len(self.__queue) > 0] loop of [handler]; [fuel] bounds
    the number of times the condition is evaluated. *)
Fixpoint drain (fuel : nat) : M unit :=
  match fuel with
  | O => stuck
  | S fuel' =>
      n ← len_queue;
      if (0 <? n)%nat then
        notification ← popleft;
        (if credentials_set then
           __notification_send_email (to_emails notification)
             (subject notification) (message notification)
         else mret tt) ;;
        drain fuel'
      else mret tt
  end.

(** [handler], the closure of [Notifications.__init__]: start the timer
    for the next run, then drain the queue. *)
Definition handler (fuel : nat) : M unit :=
  Timer_start 3 ;;
  drain fuel.

(** [Notifications.send_email_verification] *)
Definition send_email_verification (to_email : string) : M unit :=
  add [to_email]
    (tpl_subject (NOTIFICATION_MAIL_UPDATED settings))
    (tpl_message (NOTIFICATION_MAIL_UPDATED settings)).

(** [Notifications.send_transcription_finished] *)
Definition send_transcription_finished (to_email : string) : M unit :=
  add [to_email]
    (tpl_subject (NOTIFICATION_MAIL_TRANSCRIPTION_FINISHED settings))
    (tpl_message (NOTIFICATION_MAIL_TRANSCRIPTION_FINISHED settings)).

(** [Notifications.send_transcription_failed] *)
Definition send_transcription_failed (to_email : string) : M unit :=
  add [to_email]
    (tpl_subject (NOTIFICATION_MAIL_TRANSCRIPTION_FAILED settings))
    (tpl_message (NOTIFICATION_MAIL_TRANSCRIPTION_FAILED settings)).

(** [Notifications.send_job_deleted] *)
Definition send_job_deleted (to_email : string) : M unit :=
  add [to_email]
    (tpl_subject (NOTIFICATION_MAIL_TRANSCRIPTION_DELETED settings))
    (tpl_message (NOTIFICATION_MAIL_TRANSCRIPTION_DELETED settings)).

(** [Notifications.send_job_to_be_deleted] *)
Definition send_job_to_be_deleted (to_email : string) : M unit :=
  add [to_email]
    (tpl_subject (NOTIFICATION_MAIL_TRANSCRIPTION_TO_BE_DELETED settings))
    (tpl_message (NOTIFICATION_MAIL_TRANSCRIPTION_TO_BE_DELETED settings)).

(** [Notifications.send_new_user_created]: the message is formatted while
    the arguments of [add] are evaluated, before [add] is entered. *)
Definition send_new_user_created (to_email username : string) : M unit :=
  message ← lift (format
    (tpl_message (NOTIFICATION_MAIL_NEW_USER_CREATED settings))
    (list_to_map [("username", PyStr username)]));
  add [to_email]
    (tpl_subject (NOTIFICATION_MAIL_NEW_USER_CREATED settings)) message.

(** [Notifications.notification_sent_record_add] *)
Definition notification_sent_record_add
    (user_id uuid notification_type : string) : M unit :=
  session_add_commit
    {| user_id := user_id; uuid := uuid;
       notification_type := notification_type |}.

(** The [filter_by] of [notification_sent_record_exists]. *)
Definition filter_by (u i k : string) (row : NotificationsSent) : bool :=
  String.eqb (user_id row) u
  && String.eqb (uuid row) i
  && String.eqb (notification_type row) k.

(** [Notifications.notification_sent_record_exists] *)
Definition notification_sent_record_exists
    (user_id uuid notification_type : string) : M bool :=
  record ← session_query_first (filter_by user_id uuid notification_type);
  mret (match record with Some _ => true | None => false end).

(** [Notifications.notification_send_account_activated] *)
Definition notification_send_account_activated (to_email : string) : M unit :=
  add [to_email]
    (tpl_subject (NOTIFICATION_MAIL_ACCOUNT_ACTIVATED settings))
    (tpl_message (NOTIFICATION_MAIL_ACCOUNT_ACTIVATED settings)).

(** The keyword arguments of [send_quota_alert]. *)
Definition quota_alert_kwargs (customer_name : string)
    (usage_percent blocks_purchased minutes_included minutes_consumed
     remaining_minutes : Z) : gmap string pyval :=
  list_to_map
    [("customer_name", PyStr customer_name);
     ("usage_percent", PyInt usage_percent);
     ("blocks_purchased", PyInt blocks_purchased);
     ("minutes_included", PyInt minutes_included);
     ("minutes_consumed", PyInt minutes_consumed);
     ("remaining_minutes", PyInt remaining_minutes)].

(** [Notifications.send_quota_alert] *)
Definition send_quota_alert (to_email customer_name : string)
    (usage_percent blocks_purchased minutes_included minutes_consumed
     remaining_minutes : Z) : M unit :=
  message ← lift (format
    (tpl_message (NOTIFICATION_MAIL_QUOTA_ALERT settings))
    (quota_alert_kwargs customer_name usage_percent blocks_purchased
       minutes_included minutes_consumed remaining_minutes));
  add [to_email] (tpl_subject (NOTIFICATION_MAIL_QUOTA_ALERT settings)) message.

(** The keyword arguments of [send_group_quota_alert]. *)
Definition group_quota_alert_kwargs (group_name : string)
    (usage_percent quota_minutes used_minutes remaining_minutes : Z)
  : gmap string pyval :=
  list_to_map
    [("group_name", PyStr group_name);
     ("usage_percent", PyInt usage_percent);
     ("quota_minutes", PyInt quota_minutes);
     ("used_minutes", PyInt used_minutes);
     ("remaining_minutes", PyInt remaining_minutes)].

(** [Notifications.send_group_quota_alert] *)
Definition send_group_quota_alert (to_email group_name : string)
    (usage_percent quota_minutes used_minutes remaining_minutes : Z)
  : M unit :=
  message ← lift (format
    (tpl_message (NOTIFICATION_MAIL_GROUP_QUOTA_ALERT settings))
    (group_quota_alert_kwargs group_name usage_percent quota_minutes
       used_minutes remaining_minutes));
  add [to_email]
    (tpl_subject (NOTIFICATION_MAIL_GROUP_QUOTA_ALERT settings)) message.

(** The keyword arguments of [send_weekly_usage_report]; [blocks_consumed]
    is a float. *)
Definition weekly_usage_report_kwargs (customer_name : string)
    (total_users transcribed_files transcribed_minutes
     transcribed_minutes_external blocks_purchased : Z)
    (blocks_consumed : string)
    (minutes_included remaining_minutes overage_minutes : Z)
  : gmap string pyval :=
  list_to_map
    [("customer_name", PyStr customer_name);
     ("total_users", PyInt total_users);
     ("transcribed_files", PyInt transcribed_files);
     ("transcribed_minutes", PyInt transcribed_minutes);
     ("transcribed_minutes_external", PyInt transcribed_minutes_external);
     ("blocks_purchased", PyInt blocks_purchased);
     ("blocks_consumed", PyFloat blocks_consumed);
     ("minutes_included", PyInt minutes_included);
     ("remaining_minutes", PyInt remaining_minutes);
     ("overage_minutes", PyInt overage_minutes)].

(** [Notifications.send_weekly_usage_report] *)
Definition send_weekly_usage_report (to_email customer_name : string)
    (total_users transcribed_files transcribed_minutes
     transcribed_minutes_external blocks_purchased : Z)
    (blocks_consumed : string)
    (minutes_included remaining_minutes overage_minutes : Z) : M unit :=
  message ← lift (format
    (tpl_message (NOTIFICATION_MAIL_WEEKLY_USAGE_REPORT settings))
    (weekly_usage_report_kwargs customer_name total_users transcribed_files
       transcribed_minutes transcribed_minutes_external blocks_purchased
       blocks_consumed minutes_included remaining_minutes overage_minutes));
  add [to_email]
    (tpl_subject (NOTIFICATION_MAIL_WEEKLY_USAGE_REPORT settings)) message.

End Notifications.

(** ** The [/status] endpoint of [routers/healthcheck.py] *)

Module Healthcheck.

(** JSON values of a worker's report.  Numbers and timestamps are counted
    in whole time units. *)
#[local] Unset Elimination Schemes.
Inductive json : Type :=
  | JNull
  | JBool (b : bool)
  | JNum (n : Z)
  | JStr (s : string)
  | JList (l : list json)
  | JDict (d : list (string * json)).
#[local] Set Elimination Schemes.

(** A liveness report of a worker is a dict, [gmap string json]; what
    [health.get()] returns maps each worker to its reports, oldest first. *)

(** The dict [status] that becomes the content of the response. *)
Record status : Type := {
  backend : string;
  database : string;
  workers : string;
  workers_online : nat
}.

Record JSONResponse : Type := {
  content : status;
  status_code : Z
}.

(** [now - last_seen]: defined on numbers (a bool is an int), a
    [TypeError] on anything else. *)
Definition elapsed_since (now : Z) (last_seen : json) : outcome Z :=
  match last_seen with
  | JNum n => Ret (now - n)%Z
  | JBool b => Ret (now - Z.b2z b)%Z
  | _ => Raise (TypeError "unsupported operand type(s) for -")
  end.

(** The body of the loop over [worker_data.items()] for one worker: does
    it count as online. *)
Definition online (now : Z) (stats : list (gmap string json)) : outcome bool :=
  match last stats with
  | None => Ret false
  | Some latest =>
      let last_seen := default (JNum 0) (latest !! "seen") in
      match elapsed_since now last_seen with
      | Ret d => Ret (d <? 120)%Z
      | Raise e => Raise e
      | Stuck => Stuck
      end
  end.

(** The loop: [online_count] after the workers in [items]. *)
Fixpoint count_online (now : Z)
    (items : list (string * list (gmap string json))) (online_count : nat)
  : outcome nat :=
  match items with
  | [] => Ret online_count
  | (worker_id, stats) :: items' =>
      match online now stats with
      | Ret true => count_online now items' (S online_count)
      | Ret false => count_online now items' online_count
      | Raise e => Raise e
      | Stuck => Stuck
      end
  end.

(** [get_status]: [db_probe] is what [SELECT 1] raised, if anything,
    [now] is [time.time()] and [data] is [health.get()]. *)
Definition get_status (db_probe : option exn) (now : Z)
    (data : gmap string (list (gmap string json))) : outcome JSONResponse :=
  let database := match db_probe with None => "ok" | Some _ => "error" end in
  match count_online now (map_to_list data) 0 with
  | Ret online_count =>
      let status :=
        {| backend := "ok";
           database := database;
           workers := if (0 <? online_count)%nat then "ok" else "error";
           workers_online := online_count |} in
      let core_ok := String.eqb (backend status) "ok"
                     && String.eqb database "ok" in
      Ret {| content := status;
             status_code := if core_ok then 200 else 503 |}
  | Raise e => Raise e
  | Stuck => Stuck
  end.

(** Every worker's latest report carries a numeric [seen] timestamp. *)
Definition timestamped (data : gmap string (list (gmap string json))) : Prop :=
  forall worker_id stats latest,
    data !! worker_id = Some stats -> last stats = Some latest ->
    exists seen, latest !! "seen" = Some (JNum seen).

(** Two workers: one last seen at time 881, one at time 879. *)
Definition example_data : gmap string (list (gmap string json)) :=
  <["gpu-1" := [ {[ "seen" := JNum 100 ]}; {[ "seen" := JNum 881 ]} ]]>
    (<["gpu-2" := [ {[ "seen" := JNum 879 ]} ]]> ∅).

End Healthcheck.

(** ** Vocabulary of the statements *)

(** A sequence of [add] calls, one per job, in order. *)
Definition enqueue_all (settings : Settings) (js : list job) : M unit :=
  for_each js (fun j => add settings (to_emails j) (subject j) (message j)).

(** What the drain loop does with a job it has popped. *)
Definition attempt (settings : Settings) (tr : transport) (j : job) : M unit :=
  if credentials_set settings then
    __notification_send_email settings tr
      (to_emails j) (subject j) (message j)
  else mret tt.

(** The state after one iteration of the drain loop has handled [j]. *)
Definition delivered (settings : Settings) (tr : transport)
    (st : state) (j : job) : state :=
  snd (attempt settings tr j st).

(** The calls that open a session, before any [sendmail]. *)
Definition opening_calls (settings : Settings) : list smtp_call :=
  [create_default_context;
   SMTP (API_SMTP_HOST settings) (API_SMTP_PORT settings);
   starttls;
   login (API_SMTP_USERNAME settings) (API_SMTP_PASSWORD settings)].

(** The transport calls of one delivery attempt in which every call
    succeeds. *)
Definition session_calls (settings : Settings) (j : job) : list smtp_call :=
  opening_calls settings
  ++ map (fun email =>
            sendmail (API_SMTP_SENDER settings) (to_emails j)
              (mail_to_send settings email (subject j) (message j)))
       (to_emails j).

Definition is_sendmail (c : smtp_call) : bool :=
  match c with sendmail _ _ _ => true | _ => false end.

Definition is_context (c : smtp_call) : bool :=
  match c with create_default_context => true | _ => false end.

(** Number of delivery attempts begun: each begins with one
    [create_default_context]. *)
Definition sessions (cs : list smtp_call) : nat :=
  length (List.filter is_context cs).

Definition is_error (entry : level * string) : bool :=
  match fst entry with ERROR => true | _ => false end.

(** The [ERROR] entries of a log, in order. *)
Definition errors (l : list (level * string)) : list (level * string) :=
  List.filter is_error l.

(** The entry [__notification_send_email] logs when [e] is caught. *)
Definition error_entry (j : job) (e : exn) : level * string :=
  (ERROR,
   "Error sending email to " +:+ join ", " (to_emails j) +:+ ": " +:+
   str_exn e).

(** Every call into the transport succeeds. *)
Definition working (tr : transport) : Prop :=
  forall hist c, failure (tr hist c) = None.

(** A successful delivery of [j] from [st] is a single [sendmail] call,
    addressed to all the recipients of [j]. *)
Definition single_send_call (settings : Settings) (tr : transport)
    (j : job) (st : state) : Prop :=
  forall st',
    send_email_body settings tr (to_emails j) (subject j) (message j) st
    = (Ret tt, st') ->
    exists msg,
      List.filter is_sendmail (calls st')
      = List.filter is_sendmail (calls st)
        ++ [sendmail (API_SMTP_SENDER settings) (to_emails j) msg].

(** The timer is re-armed after the cycle completes: the timer started by
    a run of [handler] fires three time units after the run ends. *)
Definition rearmed_after_completion (settings : Settings) (tr : transport)
    (fuel : nat) (st : state) : Prop :=
  exists st' t,
    handler settings tr fuel st = (Ret tt, st')
    /\ last (timers st') = Some t
    /\ fires_at t = (clock st' + 3)%N.

(** [needle] occurs in [hay]. *)
Definition occurs_in (needle hay : string) : Prop :=
  exists before after, hay = before +:+ needle +:+ after.

(** Whether [needle] occurs in [hay], by search. *)
Fixpoint occursb (needle hay : string) : bool :=
  String.prefix needle hay
  || match hay with
     | EmptyString => false
     | String _ rest => occursb needle rest
     end.

(** The template refers to the keyword [name]. *)
Definition refers_to (template name : string) : Prop :=
  In (Replacement name) (markup Text template).

(** The template is inside the modelled fragment of the format language. *)
Definition plain (template : string) : Prop :=
  ~ In Beyond (markup Text template).

(** The template has no malformed place. *)
Definition well_formed (template : string) : Prop :=
  forall msg, ~ In (Malformed msg) (markup Text template).

(** Keyword arguments have names, never positions. *)
Definition keywords_only (kwargs : gmap string pyval) : Prop :=
  forall name, is_Some (kwargs !! name) -> positional name = None.

(** The contract of a convenience sender [call] that formats [template]
    with [kwargs] and hands the message to [continue]: a field that is
    not supplied makes the call raise and leave the state as it was; if
    the template is well formed and every field is supplied, the call
    continues with a message in which every substituted value occurs. *)
Definition loud_or_complete (template : string) (kwargs : gmap string pyval)
    (call : M unit) (continue : string -> M unit) : Prop :=
  (forall name st,
     refers_to template name -> kwargs !! name = None ->
     exists e, call st = (Raise e, st))
  /\ (well_formed template ->
      (forall name, refers_to template name -> is_Some (kwargs !! name)) ->
      exists message,
        format template kwargs = Ret message
        /\ (forall st, call st = continue message st)
        /\ (forall name v,
              refers_to template name -> kwargs !! name = Some v ->
              occurs_in (str v) message)).

(** The key triple of a ledger row. *)
Definition key_of (row : NotificationsSent) : string * string * string :=
  (user_id row, uuid row, notification_type row).

(** The row [notification_sent_record_add] stores for a key triple. *)
Definition row_of (key : string * string * string) : NotificationsSent :=
  let '(u, i, k) := key in
  {| user_id := u; uuid := i; notification_type := k |}.

(** A sequence of [notification_sent_record_add] calls. *)
Definition record_all (keys : list (string * string * string)) : M unit :=
  for_each keys (fun '(u, i, k) => notification_sent_record_add u i k).

(** A computation keeps a relation between the state before and after. *)
Definition respects {A : Type} (R : relation state) (m : M A) : Prop :=
  forall st, R st (snd (m st)).

(** A computation never leaves the model. *)
Definition determined {A : Type} (m : M A) : Prop :=
  forall st, fst (m st) <> Stuck.

(** A computation neither reads nor writes the queue. *)
Definition queue_blind {A : Type} (m : M A) : Prop :=
  forall q st, m (set_queue q st) = (fst (m st), set_queue q (snd (m st))).

(** Timers and the ledger table are left alone. *)
Definition untouched (st st' : state) : Prop :=
  timers st' = timers st /\ table st' = table st.

(** No new [ERROR] entry and no new delivery attempt. *)
Definition quiet (st st' : state) : Prop :=
  errors (log st') = errors (log st)
  /\ sessions (calls st') = sessions (calls st).

(** Time does not run backwards. *)
Definition later (st st' : state) : Prop := (clock st <= clock st')%N.

(** The per-recipient loop of the [try] block. *)
Definition recipients_loop (settings : Settings) (tr : transport)
    (to : list string) (subj msg : string) (l : list string) : M unit :=
  for_each l (fun email =>
    smtp tr (sendmail (API_SMTP_SENDER settings) to
               (mail_to_send settings email subj msg)) ;;
    logger INFO ("Email sent to " +:+ join ", " to)).

(** The [try] block after its first call. *)
Definition after_context (settings : Settings) (tr : transport)
    (to : list string) (subj msg : string) : M unit :=
  smtp tr (SMTP (API_SMTP_HOST settings) (API_SMTP_PORT settings)) ;;
  smtp tr starttls ;;
  smtp tr (login (API_SMTP_USERNAME settings) (API_SMTP_PASSWORD settings)) ;;
  recipients_loop settings tr to subj msg to.

(** ** Settings and transports of the examples *)

Definition example_template : mail_template :=
  {| tpl_subject := "Notice"; tpl_message := "Hello." |}.

Definition example_settings (user password : option string) : Settings :=
  {| API_SMTP_HOST := Some "smtp.example.org";
     API_SMTP_PORT := 587;
     API_SMTP_USERNAME := user;
     API_SMTP_PASSWORD := password;
     API_SMTP_SENDER := "scribe@example.org";
     NOTIFICATION_MAIL_UPDATED := example_template;
     NOTIFICATION_MAIL_TRANSCRIPTION_FINISHED := example_template;
     NOTIFICATION_MAIL_TRANSCRIPTION_FAILED := example_template;
     NOTIFICATION_MAIL_TRANSCRIPTION_DELETED := example_template;
     NOTIFICATION_MAIL_TRANSCRIPTION_TO_BE_DELETED := example_template;
     NOTIFICATION_MAIL_NEW_USER_CREATED :=
       {| tpl_subject := "New user"; tpl_message := "User {username} created." |};
     NOTIFICATION_MAIL_ACCOUNT_ACTIVATED := example_template;
     NOTIFICATION_MAIL_QUOTA_ALERT :=
       {| tpl_subject := "Quota alert";
          tpl_message :=
            "{customer_name} used {usage_percent}% of {blocks_purchased} blocks: {minutes_consumed} of {minutes_included} minutes, {remaining_minutes} left." |};
     NOTIFICATION_MAIL_GROUP_QUOTA_ALERT := example_template;
     NOTIFICATION_MAIL_WEEKLY_USAGE_REPORT :=
       {| tpl_subject := "Weekly report";
          tpl_message :=
            "{customer_name}: {total_users} users, {blocks_consumed} blocks." |}
  |}.

(** All three SMTP settings present. *)
Definition configured : Settings :=
  example_settings (Some "scribe") (Some "secret").

(** Host present, no username and no password. *)
Definition host_only : Settings := example_settings None None.

(** A transport on which every call succeeds and takes ten time units. *)
Definition slow_transport : transport :=
  fun _ _ => {| failure := None; elapsed := 10 |}.

(** A transport on which every call fails at once. *)
Definition dead_transport : transport :=
  fun _ _ => {| failure := Some (TransportError "Connection refused");
                elapsed := 0 |}.

Definition job_ab : job :=
  {| to_emails := ["a@example.org"; "b@example.org"];
     subject := "Hi"; message := "Body" |}.

Definition job_c : job :=
  {| to_emails := ["c@example.org"]; subject := "Hi"; message := "Body" |}.

(** Settings whose quota-alert template names a field, [customer], that
    [send_quota_alert] does not supply. *)
Definition misconfigured : Settings :=
  {| API_SMTP_HOST := API_SMTP_HOST configured;
     API_SMTP_PORT := API_SMTP_PORT configured;
     API_SMTP_USERNAME := API_SMTP_USERNAME configured;
     API_SMTP_PASSWORD := API_SMTP_PASSWORD configured;
     API_SMTP_SENDER := API_SMTP_SENDER configured;
     NOTIFICATION_MAIL_UPDATED := example_template;
     NOTIFICATION_MAIL_TRANSCRIPTION_FINISHED := example_template;
     NOTIFICATION_MAIL_TRANSCRIPTION_FAILED := example_template;
     NOTIFICATION_MAIL_TRANSCRIPTION_DELETED := example_template;
     NOTIFICATION_MAIL_TRANSCRIPTION_TO_BE_DELETED := example_template;
     NOTIFICATION_MAIL_NEW_USER_CREATED := example_template;
     NOTIFICATION_MAIL_ACCOUNT_ACTIVATED := example_template;
     NOTIFICATION_MAIL_QUOTA_ALERT :=
       {| tpl_subject := "Quota alert";
          tpl_message := "{customer} is at {usage_percent}%." |};
     NOTIFICATION_MAIL_GROUP_QUOTA_ALERT := example_template;
     NOTIFICATION_MAIL_WEEKLY_USAGE_REPORT := example_template |}.

(** ** Further settings and transports of the examples *)

(** No SMTP host at all. *)
Definition no_host : Settings :=
  {| API_SMTP_HOST := None;
     API_SMTP_PORT := API_SMTP_PORT configured;
     API_SMTP_USERNAME := API_SMTP_USERNAME configured;
     API_SMTP_PASSWORD := API_SMTP_PASSWORD configured;
     API_SMTP_SENDER := API_SMTP_SENDER configured;
     NOTIFICATION_MAIL_UPDATED := example_template;
     NOTIFICATION_MAIL_TRANSCRIPTION_FINISHED := example_template;
     NOTIFICATION_MAIL_TRANSCRIPTION_FAILED := example_template;
     NOTIFICATION_MAIL_TRANSCRIPTION_DELETED := example_template;
     NOTIFICATION_MAIL_TRANSCRIPTION_TO_BE_DELETED := example_template;
     NOTIFICATION_MAIL_NEW_USER_CREATED := example_template;
     NOTIFICATION_MAIL_ACCOUNT_ACTIVATED := example_template;
     NOTIFICATION_MAIL_QUOTA_ALERT := example_template;
     NOTIFICATION_MAIL_GROUP_QUOTA_ALERT := example_template;
     NOTIFICATION_MAIL_WEEKLY_USAGE_REPORT := example_template |}.

(** Settings whose new-user template names a field, [name], that
    [send_new_user_created] does not supply. *)
Definition bad_new_user : Settings :=
  {| API_SMTP_HOST := API_SMTP_HOST configured;
     API_SMTP_PORT := API_SMTP_PORT configured;
     API_SMTP_USERNAME := API_SMTP_USERNAME configured;
     API_SMTP_PASSWORD := API_SMTP_PASSWORD configured;
     API_SMTP_SENDER := API_SMTP_SENDER configured;
     NOTIFICATION_MAIL_UPDATED := example_template;
     NOTIFICATION_MAIL_TRANSCRIPTION_FINISHED := example_template;
     NOTIFICATION_MAIL_TRANSCRIPTION_FAILED := example_template;
     NOTIFICATION_MAIL_TRANSCRIPTION_DELETED := example_template;
     NOTIFICATION_MAIL_TRANSCRIPTION_TO_BE_DELETED := example_template;
     NOTIFICATION_MAIL_NEW_USER_CREATED :=
       {| tpl_subject := "New user"; tpl_message := "{name} joined." |};
     NOTIFICATION_MAIL_ACCOUNT_ACTIVATED := example_template;
     NOTIFICATION_MAIL_QUOTA_ALERT := example_template;
     NOTIFICATION_MAIL_GROUP_QUOTA_ALERT := example_template;
     NOTIFICATION_MAIL_WEEKLY_USAGE_REPORT := example_template |}.

(** A transport that refuses [starttls] in every session but the first
    and is fine otherwise. *)
Definition flaky_transport : transport :=
  fun hist c =>
    {| failure :=
         match c with
         | starttls =>
             if (3 <? length hist)%nat
             then Some (TransportError "STARTTLS refused")
             else None
         | _ => None
         end;
       elapsed := 1 |}.

(** ** Vocabulary of further statements *)

(** What a transport makes of a planned sequence of calls: the calls made,
    up to and including the first that fails, and that failure. *)
Fixpoint transcript (tr : transport) (hist planned : list smtp_call)
  : list smtp_call * option exn :=
  match planned with
  | [] => ([], None)
  | c :: planned' =>
      match failure (tr hist c) with
      | Some e => ([c], Some e)
      | None =>
          let (made, failed) := transcript tr (hist ++ [c]) planned' in
          (c :: made, failed)
      end
  end.

(** Every delivery attempt of a drain cycle fails: the cycle handles the
    jobs [js] one after the other, starting with the transport history
    [hist], and in the session of each job some call fails. *)
Fixpoint every_attempt_fails (settings : Settings) (tr : transport)
    (hist : list smtp_call) (js : list job) : Prop :=
  match js with
  | [] => True
  | j :: js' =>
      snd (transcript tr hist (session_calls settings j)) <> None
      /\ every_attempt_fails settings tr
           (hist ++ fst (transcript tr hist (session_calls settings j))) js'
  end.

(** A transport that opens every session and refuses every [sendmail],
    as for a malformed address. *)
Definition refuses_recipients : transport :=
  fun _ c =>
    {| failure :=
         match c with
         | sendmail _ _ _ => Some (TransportError "Recipient address rejected")
         | _ => None
         end;
       elapsed := 1 |}.

(** A call of one of the ten convenience senders, with its arguments. *)
Inductive sender_call : Type :=
  | email_verification (to_email : string)
  | transcription_finished (to_email : string)
  | transcription_failed (to_email : string)
  | job_deleted (to_email : string)
  | job_to_be_deleted (to_email : string)
  | new_user_created (to_email username : string)
  | account_activated (to_email : string)
  | quota_alert (to_email customer_name : string)
      (usage_percent blocks_purchased minutes_included minutes_consumed
       remaining_minutes : Z)
  | group_quota_alert (to_email group_name : string)
      (usage_percent quota_minutes used_minutes remaining_minutes : Z)
  | weekly_usage_report (to_email customer_name : string)
      (total_users transcribed_files transcribed_minutes
       transcribed_minutes_external blocks_purchased : Z)
      (blocks_consumed : string)
      (minutes_included remaining_minutes overage_minutes : Z).

(** The method the call invokes. *)
Definition dispatch (settings : Settings) (c : sender_call) : M unit :=
  match c with
  | email_verification to => send_email_verification settings to
  | transcription_finished to => send_transcription_finished settings to
  | transcription_failed to => send_transcription_failed settings to
  | job_deleted to => send_job_deleted settings to
  | job_to_be_deleted to => send_job_to_be_deleted settings to
  | new_user_created to username => send_new_user_created settings to username
  | account_activated to => notification_send_account_activated settings to
  | quota_alert to name up bp mi mc rm =>
      send_quota_alert settings to name up bp mi mc rm
  | group_quota_alert to name up qm um rm =>
      send_group_quota_alert settings to name up qm um rm
  | weekly_usage_report to name tu tf tm tme bp bc mi rm om =>
      send_weekly_usage_report settings to name tu tf tm tme bp bc mi rm om
  end.

(** The subject of the template the call uses. *)
Definition subject_of (settings : Settings) (c : sender_call) : string :=
  tpl_subject
    (match c with
     | email_verification _ => NOTIFICATION_MAIL_UPDATED settings
     | transcription_finished _ =>
         NOTIFICATION_MAIL_TRANSCRIPTION_FINISHED settings
     | transcription_failed _ =>
         NOTIFICATION_MAIL_TRANSCRIPTION_FAILED settings
     | job_deleted _ => NOTIFICATION_MAIL_TRANSCRIPTION_DELETED settings
     | job_to_be_deleted _ =>
         NOTIFICATION_MAIL_TRANSCRIPTION_TO_BE_DELETED settings
     | new_user_created _ _ => NOTIFICATION_MAIL_NEW_USER_CREATED settings
     | account_activated _ => NOTIFICATION_MAIL_ACCOUNT_ACTIVATED settings
     | quota_alert _ _ _ _ _ _ _ => NOTIFICATION_MAIL_QUOTA_ALERT settings
     | group_quota_alert _ _ _ _ _ _ =>
         NOTIFICATION_MAIL_GROUP_QUOTA_ALERT settings
     | weekly_usage_report _ _ _ _ _ _ _ _ _ _ _ =>
         NOTIFICATION_MAIL_WEEKLY_USAGE_REPORT settings
     end).

(** The address the call is for. *)
Definition recipient (c : sender_call) : string :=
  match c with
  | email_verification to | transcription_finished to
  | transcription_failed to | job_deleted to | job_to_be_deleted to
  | new_user_created to _ | account_activated to
  | quota_alert to _ _ _ _ _ _ | group_quota_alert to _ _ _ _ _
  | weekly_usage_report to _ _ _ _ _ _ _ _ _ _ => to
  end.

(** The warning [add] logs without an SMTP host. *)
Definition host_warning : level * string :=
  (WARNING,
   "SMTP host is not configured. Email notifications will not be sent.").

(** Whether the status loop counts a worker with these reports. *)
Definition is_online (now : Z) (stats : list (gmap string Healthcheck.json))
  : bool :=
  match Healthcheck.online now stats with
  | Ret true => true
  | _ => false
  end.

(** A history cut down to its latest report. *)
Definition latest_only (stats : list (gmap string Healthcheck.json))
  : list (gmap string Healthcheck.json) :=
  option_list (last stats).

(** ** [str.format] in full

    The two senders of the quota alert and of the weekly report hand
    their template to [str.format], and the template comes from the
    settings.  This is the format language as the interpreter implements
    it (Objects/stringlib/unicode_format.h), for a call with keyword
    arguments only: literal text and the escapes [{{] and [}}],
    replacement fields with accessors ([a.b], [a[0]]), conversions
    ([!r]) and format specifications ([:>10]), which may contain fields
    of their own, one level deep.  Text is read one character at a time,
    characters being code points below 256. *)

Module StringFormat.

(** What Python does with a value once [format] has found it: following
    the accessors of the field name and applying the conversion
    ([resolve]), and formatting the resulting object under a format
    specification ([render_field]).  Either may raise; neither touches
    the state of the process. *)
Record builtins : Type := {
  object : Type;
  resolve : pyval -> string -> option ascii -> exn + object;
  render_field : object -> string -> exn + string
}.

Definition of_sum {A : Type} (r : exn + A) : outcome A :=
  match r with
  | inl e => Raise e
  | inr a => Ret a
  end.

(** What [MarkupIterator_next] yields, left to right. *)
Inductive token : Type :=
  | Literal (c : ascii)
  | Field (field_name : string) (conversion : option ascii)
      (format_spec : string)
  | Malformed (msg : string).

(** Where the scanner is: in literal text, after a brace, or inside a
    replacement field ([parse_field]): in its name, inside the brackets
    of an index, after [!], after the conversion character, or in the
    format specification with [nested] braces open. *)
Inductive position : Type :=
  | Text
  | AfterOpen
  | AfterClose
  | InName (name : string)
  | InIndex (name : string)
  | AfterBang (name : string)
  | AfterConversion (name : string) (c : ascii)
  | InSpec (name : string) (conversion : option ascii) (spec : string)
      (nested : nat).

(** What reading one character does: an item is complete (and literal
    text follows), the scan goes on in another mode, or it stops. *)
Inductive action : Type :=
  | Emit (it : token)
  | Go (m : position)
  | Stop (msg : string).

Definition snoc (s : string) (c : ascii) : string :=
  s +:+ String c EmptyString.

(** A conversion character; [parse_field] keeps the character 0 for a
    field without one. *)
Definition conversion_of (c : ascii) : option ascii :=
  if Ascii.eqb c Ascii.zero then None else Some c.

(** A character of the field name, outside brackets. *)
Definition name_char (name : string) (c : ascii) : action :=
  if Ascii.eqb c "}" then Emit (Field name None "")
  else if Ascii.eqb c "{" then Stop "unexpected '{' in field name"
  else if Ascii.eqb c "[" then Go (InIndex (snoc name c))
  else if Ascii.eqb c ":" then Go (InSpec name None "" 0)
  else if Ascii.eqb c "!" then Go (AfterBang name)
  else Go (InName (snoc name c)).

Definition step (m : position) (c : ascii) : action :=
  match m with
  | Text =>
      if Ascii.eqb c "{" then Go AfterOpen
      else if Ascii.eqb c "}" then Go AfterClose
      else Emit (Literal c)
  | AfterOpen =>
      if Ascii.eqb c "{" then Emit (Literal "{") else name_char "" c
  | AfterClose =>
      if Ascii.eqb c "}" then Emit (Literal "}")
      else Stop "Single '}' encountered in format string"
  | InName name => name_char name c
  | InIndex name =>
      if Ascii.eqb c "]" then Go (InName (snoc name c))
      else Go (InIndex (snoc name c))
  | AfterBang name => Go (AfterConversion name c)
  | AfterConversion name conv =>
      if Ascii.eqb c "}" then Emit (Field name (conversion_of conv) "")
      else if Ascii.eqb c ":" then Go (InSpec name (conversion_of conv) "" 0)
      else Stop "expected ':' after conversion specifier"
  | InSpec name conv spec nested =>
      if Ascii.eqb c "{" then Go (InSpec name conv (snoc spec c) (S nested))
      else if Ascii.eqb c "}" then
        match nested with
        | O => Emit (Field name conv spec)
        | S nested' => Go (InSpec name conv (snoc spec c) nested')
        end
      else Go (InSpec name conv (snoc spec c) nested)
  end.

(** The end of the template. *)
Definition finish (m : position) : list token :=
  match m with
  | Text => []
  | AfterOpen => [Malformed "Single '{' encountered in format string"]
  | AfterClose => [Malformed "Single '}' encountered in format string"]
  | InName _ | InIndex _ => [Malformed "expected '}' before end of string"]
  | AfterBang _ =>
      [Malformed "end of string while looking for conversion specifier"]
  | AfterConversion _ _ | InSpec _ _ _ _ =>
      [Malformed "unmatched '{' in format spec"]
  end.

(** The scanner, [MarkupIterator_next] called until the template ends.
    It stops at the first malformed place. *)
Fixpoint MarkupIterator (m : position) (s : string) : list token :=
  match s with
  | EmptyString => finish m
  | String c rest =>
      match step m c with
      | Emit it => it :: MarkupIterator Text rest
      | Go m' => MarkupIterator m' rest
      | Stop msg => [Malformed msg]
      end
  end.

(** [field_name_split]: the name up to its first [.] or [[], and the
    accessors that follow. *)
Fixpoint field_name_split (field_name : string) : string * string :=
  match field_name with
  | EmptyString => (EmptyString, EmptyString)
  | String c rest =>
      if Ascii.eqb c "." || Ascii.eqb c "[" then (EmptyString, field_name)
      else let (first, accessors) := field_name_split rest in
           (String c first, accessors)
  end.

Definition PY_SSIZE_T_MAX : N := 9223372036854775807.

(** [get_integer]: the index a name of decimal digits denotes; no index
    for the empty name and for any other name. *)
Definition get_integer (first : string) : outcome (option N) :=
  match first with
  | EmptyString => Ret None
  | _ =>
      match NilEmpty.uint_of_string first with
      | Some d =>
          if (N.of_uint d <=? PY_SSIZE_T_MAX)%N then Ret (Some (N.of_uint d))
          else Raise (ValueError "Too many decimal digits in format string")
      | None => Ret None
      end
  end.

(** The index of a field that is read from the positional arguments: the
    number written, or the next automatic number for the empty name.
    There are no positional arguments, so the first such field raises and
    the automatic numbering is still at 0 when it is reached. *)
Definition positional_index (first : string) (index : option N) : option N :=
  match first with
  | EmptyString => Some 0%N
  | _ => index
  end.

Section Format.

Variable py : builtins.
Variable kwargs : gmap string pyval.

(** The first part of [get_field_object]: the keyword argument the field
    starts from, with the accessors still to follow. *)
Definition get_field_object (field_name : string) : outcome (pyval * string) :=
  let (first, accessors) := field_name_split field_name in
  match get_integer first with
  | Ret index =>
      match positional_index first index with
      | Some i =>
          Raise (IndexError
                   ("Replacement index " +:+ NilZero.string_of_uint (N.to_uint i)
                    +:+ " out of range for positional args tuple"))
      | None =>
          match kwargs !! first with
          | None => Raise (KeyError first)
          | Some v => Ret (v, accessors)
          end
      end
  | Raise e => Raise e
  | Stuck => Stuck
  end.

(** The field is a bare name: no accessor, no conversion, empty format
    specification. *)
Definition bare (accessors : string) (conversion : option ascii)
    (format_spec : string) : bool :=
  match accessors, conversion, format_spec with
  | EmptyString, None, EmptyString => true
  | _, _, _ => false
  end.

(** The format specification holds a field of its own. *)
Fixpoint needs_expanding (format_spec : string) : bool :=
  match format_spec with
  | EmptyString => false
  | String c rest => Ascii.eqb c "{" || needs_expanding rest
  end.

(** [output_markup]: the text a replacement field is replaced by.  The
    value is looked up first, then accessors and conversion are applied,
    then the format specification is expanded ([expand]), then the object
    is formatted.  A bare name of a [str], [int] or [float] is replaced by
    [str] of the value. *)
Definition output_markup (expand : string -> outcome string)
    (field_name : string) (conversion : option ascii) (format_spec : string)
  : outcome string :=
  match get_field_object field_name with
  | Ret (v, accessors) =>
      if bare accessors conversion format_spec then Ret (str v)
      else
        match resolve py v accessors conversion with
        | inr obj =>
            match (if needs_expanding format_spec then expand format_spec
                   else Ret format_spec) with
            | Ret spec => of_sum (render_field py obj spec)
            | Raise e => Raise e
            | Stuck => Stuck
            end
        | inl e => Raise e
        end
  | Raise e => Raise e
  | Stuck => Stuck
  end.

(** [do_markup]: the items are rendered from left to right; the first
    one that fails ends the call. *)
Fixpoint do_markup (expand : string -> outcome string) (items : list token)
  : outcome string :=
  match items with
  | [] => Ret EmptyString
  | Literal c :: items' =>
      match do_markup expand items' with
      | Ret s => Ret (String c s)
      | r => r
      end
  | Field field_name conversion format_spec :: items' =>
      match output_markup expand field_name conversion format_spec with
      | Ret text =>
          match do_markup expand items' with
          | Ret s => Ret (text +:+ s)
          | r => r
          end
      | r => r
      end
  | Malformed msg :: _ => Raise (ValueError msg)
  end.

(** [build_string]: a format specification is expanded with one level
    of recursion less. *)
Fixpoint build_string (recursion_depth : nat) (input : string)
  : outcome string :=
  match recursion_depth with
  | O => Raise (ValueError "Max string recursion exceeded")
  | S depth => do_markup (build_string depth) (MarkupIterator Text input)
  end.

(** [do_string_format]: [template.format(...)] with keyword arguments
    [kwargs] *)
Definition do_string_format (template : string) : outcome string :=
  build_string 2 template.

End Format.

Section Senders.

Variable py : builtins.
Variable settings : Settings.

(** [Notifications.send_quota_alert] *)
Definition send_quota_alert (to_email customer_name : string)
    (usage_percent blocks_purchased minutes_included minutes_consumed
     remaining_minutes : Z) : M unit :=
  message ← lift (do_string_format py
    (quota_alert_kwargs customer_name usage_percent blocks_purchased
       minutes_included minutes_consumed remaining_minutes)
    (tpl_message (NOTIFICATION_MAIL_QUOTA_ALERT settings)));
  add settings [to_email]
    (tpl_subject (NOTIFICATION_MAIL_QUOTA_ALERT settings)) message.

(** [Notifications.send_weekly_usage_report] *)
Definition send_weekly_usage_report (to_email customer_name : string)
    (total_users transcribed_files transcribed_minutes
     transcribed_minutes_external blocks_purchased : Z)
    (blocks_consumed : string)
    (minutes_included remaining_minutes overage_minutes : Z) : M unit :=
  message ← lift (do_string_format py
    (weekly_usage_report_kwargs customer_name total_users transcribed_files
       transcribed_minutes transcribed_minutes_external blocks_purchased
       blocks_consumed minutes_included remaining_minutes overage_minutes)
    (tpl_message (NOTIFICATION_MAIL_WEEKLY_USAGE_REPORT settings)));
  add settings [to_email]
    (tpl_subject (NOTIFICATION_MAIL_WEEKLY_USAGE_REPORT settings)) message.

End Senders.

(** *** Vocabulary of the statements about [format] *)

(** The keyword a field starts from. *)
Definition first_of (field_name : string) : string :=
  fst (field_name_split field_name).

(** The accessors of a field. *)
Definition accessors_of (field_name : string) : string :=
  snd (field_name_split field_name).

(** The keywords an item starts from: that of the field, and [names] of
    its format specification. *)
Definition item_names (names : string -> list string) (it : token)
  : list string :=
  match it with
  | Field field_name _ format_spec => first_of field_name :: names format_spec
  | _ => []
  end.

(** The keywords the fields of a template start from, down to [depth]
    levels: the fields of the template and the fields inside their
    format specifications. *)
Fixpoint field_names (depth : nat) (template : string) : list string :=
  match depth with
  | O => []
  | S depth' =>
      flat_map (item_names (field_names depth')) (MarkupIterator Text template)
  end.

(** The template refers to the keyword [name], in a field or inside the
    format specification of one. *)
Definition mentions (template name : string) : Prop :=
  exists depth, In name (field_names depth template).

(** A field of the template itself. *)
Definition field_of (template field_name : string)
    (conversion : option ascii) (format_spec : string) : Prop :=
  In (Field field_name conversion format_spec) (MarkupIterator Text template).

(** The template has no malformed place. *)
Definition wellformed_markup (template : string) : Prop :=
  forall msg, ~ In (Malformed msg) (MarkupIterator Text template).

(** The text a field of the template is replaced by. *)
Definition field_text (py : builtins) (kwargs : gmap string pyval)
    (field_name : string) (conversion : option ascii) (format_spec : string)
  : outcome string :=
  output_markup py kwargs (build_string py kwargs 1)
    field_name conversion format_spec.

(** Every keyword argument is found by the field that is its bare name:
    no name is empty, a number, or has an accessor in it. *)
Definition keywords (kwargs : gmap string pyval) : Prop :=
  forall name v,
    kwargs !! name = Some v -> get_field_object kwargs name = Ret (v, "").

(** The contract of a convenience sender [call] that formats [template]
    with [kwargs] and hands the message to [continue].

    - A keyword the template refers to and the sender does not supply
      makes the call raise and leave the state as it was, however the
      field is written.
    - The call does nothing else than raise, with the state as it was,
      or continue with the formatted message.
    - The template is formatted exactly if it is well formed and each of
      its fields has a text.
    - The text of every field occurs in the formatted message.
    - The text of a bare name that is supplied is [str] of its value.
    - So the value of every bare name occurs in the formatted message. *)
Definition raises_or_renders (py : builtins) (template : string)
    (kwargs : gmap string pyval) (call : M unit) (continue : string -> M unit)
  : Prop :=
  (forall name st,
     mentions template name -> kwargs !! name = None ->
     exists e, call st = (Raise e, st))
  /\ (forall st,
        (exists e,
           do_string_format py kwargs template = Raise e
           /\ call st = (Raise e, st))
        \/ (exists message,
              do_string_format py kwargs template = Ret message
              /\ call st = continue message st))
  /\ ((exists message, do_string_format py kwargs template = Ret message)
      <-> wellformed_markup template
          /\ forall field_name conversion format_spec,
               field_of template field_name conversion format_spec ->
               exists text,
                 field_text py kwargs field_name conversion format_spec
                 = Ret text)
  /\ (forall message field_name conversion format_spec,
        do_string_format py kwargs template = Ret message ->
        field_of template field_name conversion format_spec ->
        exists text,
          field_text py kwargs field_name conversion format_spec = Ret text
          /\ occurs_in text message)
  /\ (forall name v,
        kwargs !! name = Some v ->
        field_text py kwargs name None "" = Ret (str v))
  /\ (forall message name v,
        do_string_format py kwargs template = Ret message ->
        field_of template name None "" -> kwargs !! name = Some v ->
        occurs_in (str v) message).

(** *** Builtins and settings of the examples *)

(** Builtins that answer the trivial questions only: a value without
    accessor and conversion is itself, and under the empty format
    specification it is formatted by [str].  Every other question is
    refused. *)
Definition trivial_builtins : builtins :=
  {| object := pyval;
     resolve := fun v accessors conversion =>
       match accessors, conversion with
       | EmptyString, None => inr v
       | _, _ => inl (TypeError "not answered")
       end;
     render_field := fun obj format_spec =>
       match format_spec with
       | EmptyString => inr (str obj)
       | _ => inl (TypeError "not answered")
       end |}.

(** The settings of the examples with another message of the quota
    alert. *)
Definition with_quota_message (message : string) : Settings :=
  {| API_SMTP_HOST := API_SMTP_HOST configured;
     API_SMTP_PORT := API_SMTP_PORT configured;
     API_SMTP_USERNAME := API_SMTP_USERNAME configured;
     API_SMTP_PASSWORD := API_SMTP_PASSWORD configured;
     API_SMTP_SENDER := API_SMTP_SENDER configured;
     NOTIFICATION_MAIL_UPDATED := example_template;
     NOTIFICATION_MAIL_TRANSCRIPTION_FINISHED := example_template;
     NOTIFICATION_MAIL_TRANSCRIPTION_FAILED := example_template;
     NOTIFICATION_MAIL_TRANSCRIPTION_DELETED := example_template;
     NOTIFICATION_MAIL_TRANSCRIPTION_TO_BE_DELETED := example_template;
     NOTIFICATION_MAIL_NEW_USER_CREATED := example_template;
     NOTIFICATION_MAIL_ACCOUNT_ACTIVATED := example_template;
     NOTIFICATION_MAIL_QUOTA_ALERT :=
       {| tpl_subject := "Quota alert"; tpl_message := message |};
     NOTIFICATION_MAIL_GROUP_QUOTA_ALERT := example_template;
     NOTIFICATION_MAIL_WEEKLY_USAGE_REPORT := example_template |}.

End StringFormat.

(** ** [format] on bare names and [format] in full, side by side *)

(** The mode of the scanner of bare names, as a mode of the full one. *)
Definition full_mode (m : mode) : StringFormat.position :=
  match m with
  | Text => StringFormat.Text
  | AfterOpen => StringFormat.AfterOpen
  | AfterClose => StringFormat.AfterClose
  | InField name => StringFormat.InName name
  end.

(** A name without accessor. *)
Definition clean (name : string) : Prop :=
  StringFormat.field_name_split name = (name, EmptyString).

Definition clean_mode (m : mode) : Prop :=
  match m with
  | InField name => clean name
  | _ => True
  end.

(** Wherever the embedding on bare names has an answer, [full] is the
    same answer: the same value, or an exception. *)
Definition agree {A : Type} (bare_names full : outcome A) : Prop :=
  match bare_names with
  | Ret a => full = Ret a
  | Raise _ => exists e, full = Raise e
  | Stuck => True
  end.

(** The same for a run: the same result and state, or an exception in
    the same state. *)
Definition agree_run {A : Type} (bare_names full : outcome A * state) : Prop :=
  match bare_names with
  | (Ret a, st) => full = (Ret a, st)
  | (Raise _, st) => exists e, full = (Raise e, st)
  | (Stuck, _) => True
  end.

(** ** The user router, [routers/user.py] *)

Module User.

(** [item.notifications] of a [UserUpdateRequest]: five optional flags. *)
Record NotificationSettings : Type := {
  notify_on_job : option bool;
  notify_on_deletion : option bool;
  notify_on_user : option bool;
  notify_on_quota : option bool;
  notify_on_weekly_report : option bool
}.

(** The fields of a [UserUpdateRequest] that [set_user_info] reads. *)
Record UserUpdateRequest : Type := {
  encryption : option bool;
  encryption_password : option string;
  reset_password : option bool;
  verify_password : option bool;
  email : option string;
  notifications : option NotificationSettings
}.

(** The keyword arguments [set_user_info] passes to [user_update]. *)
Inductive user_update_kwargs : Type :=
  | encryption_kwargs (encryption_settings : option bool)
      (password : option string)
  | reset_encryption_kwargs
  | email_kwargs (new_email : string)
  | notifications_str_kwargs (flags : string).

(** One call into [db.user]. *)
Inductive db_call : Type :=
  | user_get_email (user_id : string)
  | user_get_private_key (user_id : string)
  | user_update (user_id : string) (kwargs : user_update_kwargs).

(** [db.user] and [utils.crypto], consumed: what each call answers, given
    the calls into [db.user] made so far. *)
Record collaborators : Type := {
  email_of : list db_call -> string -> outcome (option string);
  private_key_of : list db_call -> string -> outcome string;
  update_failure : list db_call -> string -> user_update_kwargs -> option exn;
  validate_failure : string -> option string -> option exn
}.

(** The process as the router sees it: the notification system and the
    calls made into [db.user], oldest first. *)
Record ustate : Type := {
  notif : state;
  db_calls : list db_call
}.

Definition U (A : Type) : Type := ustate -> outcome A * ustate.

#[global] Instance U_ret : MRet U := fun A a s => (Ret a, s).

#[global] Instance U_bind : MBind U := fun A B f m s =>
  match m s with
  | (Ret a, s') => f a s'
  | (Raise e, s') => (Raise e, s')
  | (Stuck, s') => (Stuck, s')
  end.

Definition uraise {A : Type} (e : exn) : U A := fun s => (Raise e, s).

(** A computation of the notification system, run from the router. *)
Definition liftM {A : Type} (m : M A) : U A :=
  fun s =>
    let (r, st') := m (notif s) in
    (r, {| notif := st'; db_calls := db_calls s |}).

(** A call into [db.user] with the answer [answer] : recorded, then
    answered. *)
Definition db {A : Type} (c : db_call)
    (answer : list db_call -> outcome A) : U A :=
  fun s => (answer (db_calls s),
            {| notif := notif s; db_calls := db_calls s ++ [c] |}).

(** [try: body except ValueError: handler] *)
Definition try_except_ValueError {A : Type} (body handler : U A) : U A :=
  fun s =>
    match body s with
    | (Raise (ValueError _), s') => handler s'
    | r => r
    end.

(** [d[key]] on a dict with string values. *)
Definition getitem (d : gmap string string) (key : string) : U string :=
  match d !! key with
  | Some v => mret v
  | None => uraise (KeyError key)
  end.

(** [flag is not None and flag] *)
Definition enabled (flag : option bool) : bool :=
  match flag with Some true => true | _ => false end.

(** The JSON body and status of a [JSONResponse]. *)
Record JSONResponse : Type := {
  content : Healthcheck.json;
  status_code : Z
}.

(** The string [set_user_info] builds from the five flags. *)
Definition notifications_str (n : NotificationSettings) : string :=
  let s := "" in
  let s := if enabled (notify_on_job n) then s +:+ "job," else s in
  let s := if enabled (notify_on_deletion n) then s +:+ "deletion," else s in
  let s := if enabled (notify_on_user n) then s +:+ "user," else s in
  let s := if enabled (notify_on_quota n) then s +:+ "quota," else s in
  let s := if enabled (notify_on_weekly_report n)
           then s +:+ "weekly_report," else s in
  s.

Section Router.

Variable settings : Settings.
Variable collab : collaborators.

(** [user_update(user_id, ...)] *)
Definition call_user_update (user_id : string) (kwargs : user_update_kwargs)
  : U unit :=
  db (user_update user_id kwargs)
    (fun hist =>
       match update_failure collab hist user_id kwargs with
       | Some e => Raise e
       | None => Ret tt
       end).

(** [validate_private_key_password(private_key, password)] *)
Definition call_validate (private_key : string) (password : option string)
  : U unit :=
  match validate_failure collab private_key password with
  | Some e => uraise e
  | None => mret tt
  end.

(** The [if]/[elif] chain of [set_user_info]; the result is the response
    of the [return] inside the chain, if that was reached. *)
Definition set_user_info_chain (item : UserUpdateRequest)
    (user : gmap string string) : U (option JSONResponse) :=
  if enabled (encryption item) && truthy (encryption_password item) then
    user_id ← getitem user "user_id";
    call_user_update user_id
      (encryption_kwargs (encryption item) (encryption_password item)) ;;
    mret None
  else if enabled (reset_password item) then
    user_id ← getitem user "user_id";
    call_user_update user_id reset_encryption_kwargs ;;
    mret None
  else if enabled (verify_password item) then
    user_id ← getitem user "user_id";
    private_key ← db (user_get_private_key user_id)
                     (fun hist => private_key_of collab hist user_id);
    try_except_ValueError
      (call_validate private_key (encryption_password item) ;; mret None)
      (user_id' ← getitem user "user_id";
       liftM (logger INFO
                ("Invalid private key password for user " +:+ user_id')) ;;
       mret (Some {| content :=
                       Healthcheck.JDict
                         [("error",
                           Healthcheck.JStr "Invalid private key or password")];
                     status_code := 403 |}))
  else
    match email item with
    | Some new_email =>
        user_id ← getitem user "user_id";
        call_user_update user_id (email_kwargs new_email) ;;
        mret None
    | None =>
        match notifications item with
        | Some n =>
            let flags := notifications_str n in
            user_id ← getitem user "user_id";
            call_user_update user_id (notifications_str_kwargs flags) ;;
            mret None
        | None => mret None
        end
    end.

(** [set_user_info] *)
Definition set_user_info (item : UserUpdateRequest)
    (user : gmap string string) : U JSONResponse :=
  returned ← set_user_info_chain item user;
  match returned with
  | Some response => mret response
  | None =>
      mret {| content :=
                Healthcheck.JDict
                  [("result",
                    Healthcheck.JDict [("status", Healthcheck.JStr "OK")])];
              status_code := 200 |}
  end.

(** [test_notifications] *)
Definition test_notifications (user : gmap string string) : U JSONResponse :=
  user_id ← getitem user "user_id";
  email ← db (user_get_email user_id)
             (fun hist => email_of collab hist user_id);
  if negb (truthy email) then
    mret {| content :=
              Healthcheck.JDict
                [("error", Healthcheck.JStr "No email address configured")];
            status_code := 400 |}
  else
    let email := default "" email in
    let username := default "testuser" (user !! "username") in
    liftM (send_email_verification settings email) ;;
    liftM (send_transcription_finished settings email) ;;
    liftM (send_transcription_failed settings email) ;;
    liftM (send_job_deleted settings email) ;;
    liftM (send_job_to_be_deleted settings email) ;;
    liftM (send_new_user_created settings email username) ;;
    liftM (notification_send_account_activated settings email) ;;
    liftM (send_quota_alert settings email "Test Customer"
             96 10 40000 38400 1600) ;;
    liftM (send_group_quota_alert settings email "Test Group"
             97 5000 4850 150) ;;
    liftM (send_weekly_usage_report settings email "Test Customer"
             25 142 8500 1200 10 "2.13" 40000 31500 0) ;;
    liftM (logger INFO ("Test notifications queued for " +:+ email)) ;;
    mret {| content :=
              Healthcheck.JDict
                [("result",
                  Healthcheck.JDict
                    [("status", Healthcheck.JStr "OK");
                     ("sent_to", Healthcheck.JStr email);
                     ("count", Healthcheck.JNum 10)])];
            status_code := 200 |}.

End Router.

(** The ten jobs [test_notifications] hands to [add], given the messages
    the four formatting senders render. *)
Definition test_jobs (settings : Settings)
    (address new_user quota group weekly : string)
  : list job :=
  let job_for (t : mail_template) (msg : string) :=
    {| to_emails := [address]; subject := tpl_subject t; message := msg |} in
  let plain_job (t : mail_template) := job_for t (tpl_message t) in
  [plain_job (NOTIFICATION_MAIL_UPDATED settings);
   plain_job (NOTIFICATION_MAIL_TRANSCRIPTION_FINISHED settings);
   plain_job (NOTIFICATION_MAIL_TRANSCRIPTION_FAILED settings);
   plain_job (NOTIFICATION_MAIL_TRANSCRIPTION_DELETED settings);
   plain_job (NOTIFICATION_MAIL_TRANSCRIPTION_TO_BE_DELETED settings);
   job_for (NOTIFICATION_MAIL_NEW_USER_CREATED settings) new_user;
   plain_job (NOTIFICATION_MAIL_ACCOUNT_ACTIVATED settings);
   job_for (NOTIFICATION_MAIL_QUOTA_ALERT settings) quota;
   job_for (NOTIFICATION_MAIL_GROUP_QUOTA_ALERT settings) group;
   job_for (NOTIFICATION_MAIL_WEEKLY_USAGE_REPORT settings) weekly].

(** The answer of [test_notifications] after the ten calls. *)
Definition queued_response (address : string) : JSONResponse :=
  {| content :=
       Healthcheck.JDict
         [("result",
           Healthcheck.JDict
             [("status", Healthcheck.JStr "OK");
              ("sent_to", Healthcheck.JStr address);
              ("count", Healthcheck.JNum 10)])];
     status_code := 200 |}.

(** Number of [user_update] calls made so far. *)
Definition updates (s : ustate) : nat :=
  length (List.filter
            (fun c => match c with user_update _ _ => true | _ => false end)
            (db_calls s)).

(** A request that sets no field. *)
Definition empty_request : UserUpdateRequest :=
  {| encryption := None; encryption_password := None; reset_password := None;
     verify_password := None; email := None; notifications := None |}.

(** The flags string for five booleans: the names of those that are
    true, each followed by a comma, in the order job, deletion, user,
    quota, weekly_report. *)
Definition flag_names (flags : list bool) : string :=
  String.concat ""
    (omap (fun p : bool * string => if fst p then Some (snd p +:+ ",") else None)
       (zip flags ["job"; "deletion"; "user"; "quota"; "weekly_report"])).

(** The five flags read back from a flags string: whether each name,
    followed by a comma, occurs in it. *)
Definition read_flags (flags : string) : list bool :=
  [occursb "job," flags; occursb "deletion," flags; occursb "user," flags;
   occursb "quota," flags; occursb "weekly_report," flags].

Definition is_update (c : db_call) : bool :=
  match c with user_update _ _ => true | _ => false end.

(** The flags that are set, as booleans. *)
Definition effective (n : NotificationSettings) : list bool :=
  [enabled (notify_on_job n); enabled (notify_on_deletion n);
   enabled (notify_on_user n); enabled (notify_on_quota n);
   enabled (notify_on_weekly_report n)].

(** A [db.user] whose calls all succeed: the user has the address
    [address] and the private key [key]; [valid] says whether the
    password check passes. *)
Definition example_collaborators (address : option string) (valid : bool)
  : collaborators :=
  {| email_of := fun _ _ => Ret address;
     private_key_of := fun _ _ => Ret "key";
     update_failure := fun _ _ _ => None;
     validate_failure := fun _ _ =>
       if valid then None else Some (ValueError "Invalid password") |}.

Definition example_user : gmap string string :=
  {[ "user_id" := "u1"; "username" := "alice" ]}.

Definition fresh : ustate := {| notif := initial; db_calls := [] |}.

End User.

(** ** Database bootstrap, [init_db.py] *)

Module InitDb.

(** The fields of the result of [urlparse] that the script reads. *)
Record ParseResult : Type := {
  scheme : string;
  path : string
}.

(** The calls the script makes into SQLAlchemy and SQLModel. *)
Inductive call : Type :=
  | create_engine (url : string) (isolation_level : option string)
  | connect
  | select_database (db_name : string)
  | execute (statement : string)
  | dispose
  | has_schema (name : string)
  | create_schema (name : string)
  | commit
  | create_all.

(** What the script does that can be seen from outside, oldest first. *)
Inductive event : Type :=
  | called (c : call)
  | printed (text : string).

(** A call succeeds, with a yes or no where it asks a question (a row was
    fetched, the schema exists), or raises. *)
Inductive reply : Type :=
  | answered (yes : bool)
  | failed (e : exn).

(** The database server: any reaction to a call, given what happened so
    far. *)
Definition server : Type := list event -> call -> reply.

(** How the script ends: it returns, or it leaves through [sys.exit]. *)
Inductive ending : Type :=
  | completed
  | exited (code : Z).

Definition T (A : Type) : Type := list event -> outcome A * list event.

#[global] Instance T_ret : MRet T := fun A a h => (Ret a, h).

#[global] Instance T_bind : MBind T := fun A B f m h =>
  match m h with
  | (Ret a, h') => f a h'
  | (Raise e, h') => (Raise e, h')
  | (Stuck, h') => (Stuck, h')
  end.

(** [try: body except Exception as e: handler(e)] *)
Definition try_except_T {A : Type} (body : T A) (handler : exn -> T A) : T A :=
  fun h =>
    match body h with
    | (Raise e, h') => handler e h'
    | r => r
    end.

(** [print(text)] *)
Definition print (text : string) : T unit :=
  fun h => (Ret tt, h ++ [printed text]).

(** The double quote of the [CREATE DATABASE] statement. *)
Definition dq : string := String "034"%char EmptyString.

(** [s.lstrip("/")] *)
Fixpoint lstrip_slash (s : string) : string :=
  match s with
  | EmptyString => EmptyString
  | String c rest => if Ascii.eqb c "/" then lstrip_slash rest else s
  end.

(** The text before the last ["/"] of [s], if there is one. *)
Fixpoint before_last_slash (s : string) : option string :=
  match s with
  | EmptyString => None
  | String c rest =>
      match before_last_slash rest with
      | Some p => Some (String c p)
      | None => if Ascii.eqb c "/" then Some EmptyString else None
      end
  end.

(** [s.rsplit("/", 1)[0]] *)
Definition rsplit_first (s : string) : string :=
  default s (before_last_slash s).

(** The URL of the maintenance database. *)
Definition server_url (database_url : string) : string :=
  rsplit_first database_url +:+ "/postgres".

Section Script.

Variable urlparse : string -> ParseResult.
Variable db : server.

(** A call into the database server. *)
Definition ask (c : call) : T bool :=
  fun h =>
    match db h c with
    | answered yes => (Ret yes, h ++ [called c])
    | failed e => (Raise e, h ++ [called c])
    end.

(** [create_database_if_needed] *)
Definition create_database_if_needed (database_url : string) : T unit :=
  let parsed := urlparse database_url in
  if negb (String.prefix "postgresql" (scheme parsed)) then mret tt
  else
    let db_name := lstrip_slash (path parsed) in
    if String.eqb db_name "" then mret tt
    else
      ask (create_engine (server_url database_url) (Some "AUTOCOMMIT")) ;;
      ask connect ;;
      found ← ask (select_database db_name);
      (if negb found then
         print ("Creating database '" +:+ db_name +:+ "'...") ;;
         ask (execute ("CREATE DATABASE " +:+ dq +:+ db_name +:+ dq)) ;;
         print ("Database '" +:+ db_name +:+ "' created successfully!")
       else
         print ("Database '" +:+ db_name +:+ "' already exists")) ;;
      ask dispose ;;
      mret tt.

(** [init_database], for the setting [API_DATABASE_URL]. *)
Definition init_database (API_DATABASE_URL : string) : T ending :=
  print ("Connecting to database: " +:+ API_DATABASE_URL) ;;
  try_except_T
    (create_database_if_needed API_DATABASE_URL ;;
     ask (create_engine API_DATABASE_URL None) ;;
     ask connect ;;
     present ← ask (has_schema "transcribe");
     (if (present : bool) then print "Schema 'transcribe' already exists"
      else
        try_except_T
          (ask (create_schema "transcribe") ;;
           ask commit ;;
           print "Created schema 'transcribe'")
          (fun e => print ("Schema creation skipped: " +:+ str_exn e))) ;;
     print "Creating database tables..." ;;
     ask create_all ;;
     print "Database tables created successfully!" ;;
     mret completed)
    (fun e =>
       print ("Failed to initialize database: " +:+ str_exn e) ;;
       mret (exited 1)).

End Script.

(** [s] has no ["/"]. *)
Fixpoint slash_free (s : string) : bool :=
  match s with
  | EmptyString => true
  | String c rest => negb (Ascii.eqb c "/") && slash_free rest
  end.

(** [s] is made of ["/"] only. *)
Fixpoint only_slashes (s : string) : bool :=
  match s with
  | EmptyString => true
  | String c rest => Ascii.eqb c "/" && only_slashes rest
  end.

(** The schema calls that [init_database] guards with its inner [try]. *)
Definition guarded (c : call) : bool :=
  match c with create_schema _ | commit => true | _ => false end.

(** A [urlparse] good enough for the examples: scheme up to the first
    colon, path after the host. *)
Definition example_urlparse (url : string) : ParseResult :=
  if String.eqb url "postgresql://db.example.org/scribe"
  then {| scheme := "postgresql"; path := "/scribe" |}
  else {| scheme := "sqlite"; path := "/scribe.db" |}.

(** A server on which the database is missing, the schema is missing and
    creating the schema is refused. *)
Definition example_server : server :=
  fun _ c =>
    match c with
    | select_database _ | has_schema _ => answered false
    | create_schema _ => failed (TransportError "permission denied")
    | _ => answered true
    end.

End InitDb.

(** ** Reasoning about computations *)

Lemma set_queue_same st : set_queue (queue st) st = st.
Proof. by destruct st. Qed.

Lemma set_queue_twice q q' st : set_queue q (set_queue q' st) = set_queue q st.
Proof. reflexivity. Qed.

Lemma bind_run {A B : Type} (m : M A) (f : A -> M B) st :
  (m ≫= f) st =
  match m st with
  | (Ret a, st') => f a st'
  | (Raise e, st') => (Raise e, st')
  | (Stuck, st') => (Stuck, st')
  end.
Proof. reflexivity. Qed.

Section Respects.

Variable R : relation state.
Hypothesis R_pre : PreOrder R.

Lemma respects_ret {A : Type} (a : A) : respects R (mret a).
Proof. intros st. simpl. reflexivity. Qed.

Lemma respects_bind {A B : Type} (m : M A) (f : A -> M B) :
  respects R m -> (forall a, respects R (f a)) -> respects R (m ≫= f).
Proof.
  intros Hm Hf st. rewrite bind_run.
  specialize (Hm st). destruct (m st) as [[a | e |] st1]; simpl in *.
  - etransitivity; [exact Hm | apply Hf].
  - exact Hm.
  - exact Hm.
Qed.

Lemma respects_for_each {A : Type} (l : list A) (body : A -> M unit) :
  (forall x, respects R (body x)) -> respects R (for_each l body).
Proof.
  intros Hb. induction l as [| x l IH]; simpl.
  - apply respects_ret.
  - apply respects_bind; [apply Hb | intros _; exact IH].
Qed.

Lemma respects_try_except {A : Type} (body : M A) (h : exn -> M A) :
  respects R body -> (forall e, respects R (h e)) ->
  respects R (try_except body h).
Proof.
  intros Hb Hh st. unfold try_except.
  specialize (Hb st). destruct (body st) as [[a | e |] st1]; simpl in *;
    try exact Hb.
  etransitivity; [exact Hb | apply Hh].
Qed.

End Respects.

Lemma determined_bind {A B : Type} (m : M A) (f : A -> M B) :
  determined m -> (forall a, determined (f a)) -> determined (m ≫= f).
Proof.
  intros Hm Hf st. rewrite bind_run. specialize (Hm st).
  destruct (m st) as [[a | e |] st1]; simpl in *; try done. apply Hf.
Qed.

Lemma determined_for_each {A : Type} (l : list A) (body : A -> M unit) :
  (forall x, determined (body x)) -> determined (for_each l body).
Proof.
  intros Hb. induction l as [| x l IH]; simpl.
  - by intros st.
  - apply determined_bind; [apply Hb | intros _; exact IH].
Qed.

Lemma determined_smtp tr c : determined (smtp tr c).
Proof. intros st. unfold smtp. by destruct (failure _). Qed.

Lemma determined_logger lv text : determined (logger lv text).
Proof. by intros st. Qed.

Lemma queue_blind_ret {A : Type} (a : A) : queue_blind (mret a).
Proof. by intros q st. Qed.

Lemma queue_blind_bind {A B : Type} (m : M A) (f : A -> M B) :
  queue_blind m -> (forall a, queue_blind (f a)) -> queue_blind (m ≫= f).
Proof.
  intros Hm Hf q st. rewrite !bind_run, Hm.
  destruct (m st) as [[a | e |] st1]; simpl; try done. apply Hf.
Qed.

Lemma queue_blind_for_each {A : Type} (l : list A) (body : A -> M unit) :
  (forall x, queue_blind (body x)) -> queue_blind (for_each l body).
Proof.
  intros Hb. induction l as [| x l IH]; simpl.
  - apply queue_blind_ret.
  - apply queue_blind_bind; [apply Hb | intros _; exact IH].
Qed.

Lemma queue_blind_try_except {A : Type} (body : M A) (h : exn -> M A) :
  queue_blind body -> (forall e, queue_blind (h e)) ->
  queue_blind (try_except body h).
Proof.
  intros Hb Hh q st. unfold try_except. rewrite Hb.
  destruct (body st) as [[a | e |] st1]; simpl; try done. apply Hh.
Qed.

Lemma queue_blind_smtp tr c : queue_blind (smtp tr c).
Proof. intros q st. unfold smtp. simpl. by destruct (failure _). Qed.

Lemma queue_blind_logger lv text : queue_blind (logger lv text).
Proof. by intros q st. Qed.

Lemma queue_blind_queue {A : Type} (m : M A) st :
  queue_blind m -> queue (snd (m st)) = queue st.
Proof.
  intros Hm. specialize (Hm (queue st) st). rewrite set_queue_same in Hm.
  destruct (m st) as [r st1]; simpl in *. injection Hm as Heq.
  by rewrite Heq.
Qed.

(** ** The notification queue *)

#[local] Instance untouched_pre : PreOrder untouched.
Proof.
  split.
  - by intros st.
  - intros a b c [H1 H2] [H3 H4]. split; congruence.
Qed.

#[local] Instance quiet_pre : PreOrder quiet.
Proof.
  split.
  - by intros st.
  - intros a b c [H1 H2] [H3 H4]. split; congruence.
Qed.

#[local] Instance later_pre : PreOrder later.
Proof.
  split.
  - intros st. unfold later. lia.
  - intros a b c. unfold later. lia.
Qed.

Lemma errors_app l1 l2 : errors (l1 ++ l2) = errors l1 ++ errors l2.
Proof. apply List.filter_app. Qed.

Lemma sessions_app c1 c2 : sessions (c1 ++ c2) = (sessions c1 + sessions c2)%nat.
Proof. unfold sessions. by rewrite List.filter_app, length_app. Qed.

Section Queue.

Variable settings : Settings.
Variable tr : transport.

Local Abbreviation send := (__notification_send_email settings tr).
Local Abbreviation body := (send_email_body settings tr).
Local Abbreviation recipients_loop := (recipients_loop settings tr).
Local Abbreviation after_context := (after_context settings tr).

Lemma body_blind to subj msg : queue_blind (body to subj msg).
Proof.
  unfold send_email_body.
  repeat (apply queue_blind_bind; [apply queue_blind_smtp | intros _]).
  apply queue_blind_for_each. intros email.
  apply queue_blind_bind; [apply queue_blind_smtp | intros _].
  apply queue_blind_logger.
Qed.

Lemma body_determined to subj msg : determined (body to subj msg).
Proof.
  unfold send_email_body.
  repeat (apply determined_bind; [apply determined_smtp | intros _]).
  apply determined_for_each. intros email.
  apply determined_bind; [apply determined_smtp | intros _].
  apply determined_logger.
Qed.

Lemma send_blind to subj msg : queue_blind (send to subj msg).
Proof.
  apply queue_blind_try_except; [apply body_blind |].
  intros e. apply queue_blind_logger.
Qed.

(** Nothing escapes [__notification_send_email]: it returns [None]. *)
Lemma send_returns to subj msg st : fst (send to subj msg st) = Ret tt.
Proof.
  unfold __notification_send_email, try_except.
  pose proof (body_determined to subj msg st) as Hd.
  destruct (body to subj msg st) as [[[] | e |] st1]; simpl in *; done.
Qed.

Lemma attempt_blind j : queue_blind (attempt settings tr j).
Proof.
  unfold attempt. destruct (credentials_set settings).
  - apply send_blind.
  - apply queue_blind_ret.
Qed.

Lemma attempt_returns j st : fst (attempt settings tr j st) = Ret tt.
Proof.
  unfold attempt. destruct (credentials_set settings).
  - apply send_returns.
  - reflexivity.
Qed.

Lemma attempt_run j st :
  attempt settings tr j st = (Ret tt, delivered settings tr st j).
Proof.
  unfold delivered. rewrite <- (attempt_returns j st).
  by destruct (attempt settings tr j st).
Qed.

Lemma delivered_set_queue q st j :
  delivered settings tr (set_queue q st) j
  = set_queue q (delivered settings tr st j).
Proof. unfold delivered. by rewrite attempt_blind. Qed.

Lemma foldl_delivered_set_queue q js st :
  foldl (delivered settings tr) (set_queue q st) js
  = set_queue q (foldl (delivered settings tr) st js).
Proof.
  revert st. induction js as [| j js IH]; intros st; simpl; [done |].
  by rewrite delivered_set_queue, IH.
Qed.

(** One evaluation of the loop condition and, if it holds, one iteration. *)
Lemma drain_step fuel st :
  drain settings tr (S fuel) st =
  match queue st with
  | [] => (Ret tt, st)
  | j :: q =>
      drain settings tr fuel (set_queue q (delivered settings tr st j))
  end.
Proof.
  simpl. rewrite bind_run. unfold len_queue.
  destruct (queue st) as [| j q] eqn:Hq; simpl; [done |].
  rewrite bind_run. unfold popleft. rewrite Hq.
  rewrite bind_run. fold (attempt settings tr j).
  by rewrite attempt_blind, attempt_run.
Qed.

(** With fuel for one more test than there are jobs, the loop returns; it
    leaves the queue empty, having handled the jobs from the head on. *)
Lemma drain_unroll fuel st :
  (length (queue st) < fuel)%nat ->
  drain settings tr fuel st
  = (Ret tt, set_queue [] (foldl (delivered settings tr) st (queue st))).
Proof.
  revert st. induction fuel as [| fuel IH]; intros st Hlen; [lia |].
  rewrite drain_step. destruct (queue st) as [| j q] eqn:Hq; simpl in *.
  - by rewrite <- Hq, set_queue_same.
  - rewrite IH by (simpl; lia). simpl.
    by rewrite foldl_delivered_set_queue, set_queue_twice.
Qed.

Lemma handler_unroll fuel st :
  (length (queue st) < fuel)%nat ->
  handler settings tr fuel st
  = (Ret tt,
     set_queue []
       (foldl (delivered settings tr)
          (set_timers
             (timers st ++ [{| armed_at := clock st; interval := 3 |}]) st)
          (queue st))).
Proof.
  intros Hlen. unfold handler. rewrite bind_run. unfold Timer_start.
  by rewrite drain_unroll.
Qed.

(** [enqueue_all] with the host set appends the jobs in order and logs
    nothing. *)
Lemma enqueue_all_host js st :
  truthy (API_SMTP_HOST settings) = true ->
  enqueue_all settings js st = (Ret tt, set_queue (queue st ++ js) st).
Proof.
  intros Hhost. unfold enqueue_all. revert st.
  induction js as [| j js IH]; intros st; simpl.
  - by rewrite app_nil_r, set_queue_same.
  - rewrite bind_run. unfold add at 1. rewrite Hhost. simpl.
    rewrite IH. simpl. rewrite set_queue_twice.
    by rewrite <- app_assoc; destruct j.
Qed.

(** Without the host every [add] only logs the warning. *)
Lemma enqueue_all_no_host js st :
  truthy (API_SMTP_HOST settings) = false ->
  exists st', enqueue_all settings js st = (Ret tt, st')
              /\ queue st' = queue st /\ calls st' = calls st
              /\ errors (log st') = errors (log st).
Proof.
  intros Hhost. unfold enqueue_all. revert st.
  induction js as [| j js IH]; intros st; simpl.
  - by exists st.
  - rewrite bind_run. unfold add at 1. rewrite Hhost. simpl.
    destruct (IH (set_log
      (log st ++
       [(WARNING,
         "SMTP host is not configured. Email notifications will not be sent.")])
      st)) as (st' & Hrun & Hq & Hc & He).
    exists st'. split; [exact Hrun |]. simpl in *.
    repeat split; try done. rewrite He, errors_app. simpl. by rewrite app_nil_r.
Qed.

(** *** What one delivery attempt does *)

Lemma smtp_untouched c : respects untouched (smtp tr c).
Proof. intros st. unfold smtp. by destruct (failure _). Qed.

Lemma logger_untouched lv text : respects untouched (logger lv text).
Proof. by intros st. Qed.

Lemma smtp_later c : respects later (smtp tr c).
Proof.
  intros st. unfold smtp, later. destruct (failure _); simpl; lia.
Qed.

Lemma logger_later lv text : respects later (logger lv text).
Proof. intros st. unfold later. simpl. lia. Qed.

Lemma smtp_quiet c : is_context c = false -> respects quiet (smtp tr c).
Proof.
  intros Hc st. unfold smtp, quiet.
  destruct (failure _); simpl; rewrite sessions_app; unfold sessions; simpl;
    rewrite Hc; simpl; split; (done || lia).
Qed.

Lemma logger_info_quiet text : respects quiet (logger INFO text).
Proof.
  intros st. unfold quiet. simpl. rewrite errors_app. simpl.
  by rewrite app_nil_r.
Qed.

Lemma body_split to subj msg :
  body to subj msg = (smtp tr create_default_context ;; after_context to subj msg).
Proof. reflexivity. Qed.

Lemma after_context_respects (R : relation state) to subj msg :
  PreOrder R ->
  (forall c, is_context c = false -> respects R (smtp tr c)) ->
  (forall text, respects R (logger INFO text)) ->
  respects R (after_context to subj msg).
Proof.
  intros HR Hs Hl. unfold after_context.
  repeat (apply respects_bind; [done | by apply Hs | intros _]).
  apply respects_for_each; [done |]. intros email.
  apply respects_bind; [done | by apply Hs | intros _]. apply Hl.
Qed.

Lemma attempt_respects (R : relation state) j :
  PreOrder R ->
  (forall c, respects R (smtp tr c)) ->
  (forall lv text, respects R (logger lv text)) ->
  respects R (attempt settings tr j).
Proof.
  intros HR Hs Hl. unfold attempt. destruct (credentials_set settings).
  - apply respects_try_except; [done | | intros e; apply Hl].
    rewrite body_split. apply respects_bind; [done | apply Hs | intros _].
    apply after_context_respects; auto.
  - by apply respects_ret.
Qed.

Lemma foldl_delivered_respects (R : relation state) js st :
  PreOrder R ->
  (forall c, respects R (smtp tr c)) ->
  (forall lv text, respects R (logger lv text)) ->
  R st (foldl (delivered settings tr) st js).
Proof.
  intros HR Hs Hl. revert st.
  induction js as [| j js IH]; intros st; simpl; [reflexivity |].
  etransitivity; [| apply IH]. apply (attempt_respects R j HR Hs Hl st).
Qed.

(** A run of the [try] block begins exactly one delivery attempt and logs
    no error itself. *)
Lemma body_quiet to subj msg st :
  errors (log (snd (body to subj msg st))) = errors (log st)
  /\ sessions (calls (snd (body to subj msg st))) = S (sessions (calls st)).
Proof.
  rewrite body_split, bind_run. unfold smtp.
  set (st1 := set_transport _ _ st).
  assert (sessions (calls st1) = S (sessions (calls st))) as Hs1.
  { subst st1. simpl. rewrite sessions_app. unfold sessions. simpl. lia. }
  destruct (failure _); cbn [snd]; [split; [reflexivity | exact Hs1] |].
  destruct (after_context_respects quiet to subj msg quiet_pre
              smtp_quiet logger_info_quiet st1) as [He Hs].
  split; [by rewrite He | by rewrite Hs].
Qed.

(** A failed attempt: the exception is caught and one [ERROR] entry naming
    the recipients and the error is logged. *)
Lemma send_caught to subj msg st e st1 :
  body to subj msg st = (Raise e, st1) ->
  send to subj msg st
  = (Ret tt,
     set_log (log st1 ++
              [error_entry {| to_emails := to; subject := subj;
                              message := msg |} e]) st1).
Proof.
  intros Hb. unfold __notification_send_email, try_except. by rewrite Hb.
Qed.

(** A successful attempt is the [try] block itself. *)
Lemma send_succeeded to subj msg st st1 :
  body to subj msg st = (Ret tt, st1) -> send to subj msg st = (Ret tt, st1).
Proof.
  intros Hb. unfold __notification_send_email, try_except. by rewrite Hb.
Qed.

Lemma recipients_loop_calls to subj msg l st st' :
  recipients_loop to subj msg l st = (Ret tt, st') ->
  calls st' = calls st ++
    map (fun email => sendmail (API_SMTP_SENDER settings) to
                        (mail_to_send settings email subj msg)) l
  /\ log st' = log st ++
       map (fun _ => (INFO, "Email sent to " +:+ join ", " to)) l.
Proof.
  revert st. induction l as [| email l IH]; intros st; simpl.
  - intros [= <-]. by rewrite !app_nil_r.
  - unfold recipients_loop in *. simpl. rewrite !bind_run. unfold smtp at 1.
    destruct (failure _); [done |]. simpl. intros Hrun.
    destruct (IH _ Hrun) as [Hc Hl]. simpl in *.
    by rewrite Hc, Hl, <- !app_assoc.
Qed.

(** If the [try] block returns, its calls are one session: the four
    opening calls and then one [sendmail] per recipient, each addressed to
    the whole recipient list. *)
Lemma body_returned_calls j st st' :
  body (to_emails j) (subject j) (message j) st = (Ret tt, st') ->
  calls st' = calls st ++ session_calls settings j
  /\ log st' = log st ++
       map (fun _ => (INFO, "Email sent to " +:+ join ", " (to_emails j)))
         (to_emails j).
Proof.
  rewrite body_split. unfold after_context. rewrite !bind_run.
  unfold smtp at 1. destruct (failure _); [done |]. rewrite !bind_run.
  unfold smtp at 1. destruct (failure _); [done |]. rewrite !bind_run.
  unfold smtp at 1. destruct (failure _); [done |]. rewrite !bind_run.
  unfold smtp at 1. destruct (failure _); [done |].
  intros Hrun. destruct (recipients_loop_calls _ _ _ _ _ _ Hrun) as [Hc Hl].
  simpl in *. unfold session_calls. rewrite Hc, Hl.
  split; [| done]. by rewrite <- !app_assoc.
Qed.

Lemma recipients_loop_working to subj msg l st :
  working tr -> exists st', recipients_loop to subj msg l st = (Ret tt, st').
Proof.
  intros Hw. revert st. induction l as [| email l IH]; intros st.
  - by exists st.
  - unfold recipients_loop in *. simpl. rewrite !bind_run. unfold smtp at 1.
    rewrite Hw. simpl. apply IH.
Qed.

(** On a working transport the [try] block returns. *)
Lemma body_working to subj msg st :
  working tr -> exists st', body to subj msg st = (Ret tt, st').
Proof.
  intros Hw. rewrite body_split. unfold after_context. rewrite !bind_run.
  unfold smtp at 1. rewrite Hw, !bind_run.
  unfold smtp at 1. rewrite Hw, !bind_run.
  unfold smtp at 1. rewrite Hw, !bind_run.
  unfold smtp at 1. rewrite Hw.
  apply recipients_loop_working, Hw.
Qed.

(** The drain of [js] on a working transport: one session per job, in the
    order of [js]. *)
Lemma foldl_delivered_working js st :
  working tr -> credentials_set settings = true ->
  calls (foldl (delivered settings tr) st js)
  = calls st ++ flat_map (session_calls settings) js.
Proof.
  intros Hw Hcred. revert st.
  induction js as [| j js IH]; intros st; simpl; [by rewrite app_nil_r |].
  rewrite IH. unfold delivered, attempt. rewrite Hcred.
  destruct (body_working (to_emails j) (subject j) (message j) st Hw)
    as [st1 Hb].
  rewrite (send_succeeded _ _ _ _ _ Hb). simpl.
  destruct (body_returned_calls j st st1 Hb) as [Hc _].
  by rewrite Hc, <- app_assoc.
Qed.

(** Without the credentials the drain changes nothing. *)
Lemma foldl_delivered_no_credentials js st :
  credentials_set settings = false ->
  foldl (delivered settings tr) st js = st.
Proof.
  intros Hcred. induction js as [| j js IH]; simpl; [done |].
  unfold delivered at 2. unfold attempt. by rewrite Hcred.
Qed.
End Queue.

(** ** Properties of the notification queue *)

(** C5: [add] never raises.  Without an SMTP host it logs the warning and
    leaves the buffer as it was; with a host it appends exactly one job at
    the tail of the buffer and logs nothing.  Nothing else changes. *)
Theorem add_enqueues_or_warns settings to subj msg st :
  exists st',
    add settings to subj msg st = (Ret tt, st')
    /\ calls st' = calls st /\ timers st' = timers st /\ table st' = table st
    /\ if truthy (API_SMTP_HOST settings) then
         queue st' = queue st ++
           [{| to_emails := to; subject := subj; message := msg |}]
         /\ log st' = log st
       else
         queue st' = queue st
         /\ log st' = log st ++
              [(WARNING,
                "SMTP host is not configured. Email notifications will not be sent.")].
Proof.
  unfold add. destruct (truthy (API_SMTP_HOST settings)); simpl;
    eexists; (split; [reflexivity |]); simpl; repeat split; reflexivity.
Qed.

(** C10: with the SMTP host set but the username or the password missing,
    [add] queues every job and logs no warning, and a drain cycle empties
    the buffer without a single transport call and without a log entry:
    the jobs are dropped silently. *)
Theorem host_only_drops_silently settings tr js st fuel :
  truthy (API_SMTP_HOST settings) = true ->
  truthy (API_SMTP_USERNAME settings) && truthy (API_SMTP_PASSWORD settings)
  = false ->
  (length (queue st) + length js < fuel)%nat ->
  exists st1 st2,
    enqueue_all settings js st = (Ret tt, st1)
    /\ queue st1 = queue st ++ js /\ log st1 = log st
    /\ handler settings tr fuel st1 = (Ret tt, st2)
    /\ queue st2 = [] /\ calls st2 = calls st /\ log st2 = log st
    /\ clock st2 = clock st.
Proof.
  intros Hhost Hcred Hfuel.
  assert (credentials_set settings = false) as Hno.
  { unfold credentials_set. rewrite Hhost. exact Hcred. }
  exists (set_queue (queue st ++ js) st). eexists.
  split; [by apply enqueue_all_host |].
  split; [reflexivity |]. split; [reflexivity |].
  split.
  - apply handler_unroll. simpl. rewrite length_app. lia.
  - rewrite foldl_delivered_no_credentials by exact Hno. by simpl.
Qed.

Lemma host_only_drops_silently_witness :
  exists st2,
    handler host_only dead_transport 3 (set_queue [job_ab; job_c] initial)
    = (Ret tt, st2)
    /\ queue st2 = [] /\ calls st2 = [] /\ log st2 = [].
Proof.
  destruct (host_only_drops_silently host_only dead_transport
              [job_ab; job_c] initial 3)
    as (st1 & st2 & Henq & _ & _ & Hrun & Hq & Hc & Hl & _);
    [reflexivity | reflexivity | simpl; lia |].
  injection Henq as <-. by exists st2.
Defined.

(** C3, as the code has it: [handler] starts the three-unit timer first
    and drains afterwards, so the next cycle is due three time units after
    the start of this one, however long the deliveries of this cycle
    take. *)
Theorem timer_armed_before_drain settings tr st fuel :
  (length (queue st) < fuel)%nat ->
  exists st' t,
    handler settings tr fuel st = (Ret tt, st')
    /\ timers st' = timers st ++ [t]
    /\ fires_at t = (clock st + 3)%N
    /\ (clock st <= clock st')%N.
Proof.
  intros Hfuel. eexists. exists {| armed_at := clock st; interval := 3 |}.
  split; [by apply handler_unroll |]. simpl.
  set (st0 := set_timers _ st).
  destruct (foldl_delivered_respects settings tr untouched (queue st) st0
              untouched_pre (smtp_untouched tr) logger_untouched)
    as [Ht _].
  split; [by rewrite Ht |]. split; [reflexivity |].
  apply (foldl_delivered_respects settings tr later (queue st) st0
           later_pre (smtp_later tr) logger_later).
Qed.

Lemma timer_armed_before_drain_witness :
  exists st' t,
    handler configured slow_transport 2 (set_queue [job_c] initial)
    = (Ret tt, st')
    /\ timers st' = [t] /\ fires_at t = 3%N.
Proof.
  destruct (timer_armed_before_drain configured slow_transport
              (set_queue [job_c] initial) 2)
    as (st' & t & Hrun & Ht & Hf & _); [simpl; lia |].
  by exists st', t.
Defined.

(** C3, as stated, fails: with one queued job and a transport whose calls
    take ten time units each, the cycle ends at time 50 and the next one
    is due at time 3, not at time 53. *)
Lemma slow_delivery_does_not_delay_next_cycle :
  ~ rearmed_after_completion configured slow_transport 2
      (set_queue [job_c] initial).
Proof.
  intros (st' & t & Hrun & Hlast & Hfire).
  vm_compute in Hrun. injection Hrun as <-.
  vm_compute in Hlast. injection Hlast as <-.
  vm_compute in Hfire. discriminate.
Qed.

(** C7: with the SMTP host set, jobs enter the buffer in the order of the
    [add] calls, behind those already waiting, and the drain cycle handles
    the buffer from the head on, one job after the other in that order.
    On a working transport with the credentials set, the transport sees
    one session per job, in the order the jobs were enqueued. *)
Theorem drain_is_fifo settings tr js st fuel :
  truthy (API_SMTP_HOST settings) = true ->
  (length (queue st) + length js < fuel)%nat ->
  exists st1 st2,
    enqueue_all settings js st = (Ret tt, st1)
    /\ queue st1 = queue st ++ js
    /\ handler settings tr fuel st1 = (Ret tt, st2)
    /\ st2 = set_queue []
               (foldl (delivered settings tr)
                  (set_timers
                     (timers st ++ [{| armed_at := clock st; interval := 3 |}])
                     st1)
                  (queue st ++ js))
    /\ (credentials_set settings = true -> working tr ->
        calls st2
        = calls st ++ flat_map (session_calls settings) (queue st ++ js)).
Proof.
  intros Hhost Hfuel.
  exists (set_queue (queue st ++ js) st). eexists.
  split; [by apply enqueue_all_host |]. split; [reflexivity |].
  split; [apply handler_unroll; simpl; rewrite length_app; lia |].
  split; [reflexivity |].
  intros Hcred Hw. simpl. by rewrite foldl_delivered_working.
Qed.

Lemma slow_transport_working : working slow_transport.
Proof. by intros hist c. Qed.

Lemma drain_is_fifo_witness :
  exists st2,
    handler configured slow_transport 3 (set_queue [job_ab; job_c] initial)
    = (Ret tt, st2)
    /\ calls st2
       = session_calls configured job_ab ++ session_calls configured job_c.
Proof.
  destruct (drain_is_fifo configured slow_transport [job_ab; job_c] initial 3)
    as (st1 & st2 & Henq & _ & Hrun & _ & Hcalls);
    [reflexivity | simpl; lia |].
  injection Henq as <-. exists st2. split; [exact Hrun |].
  rewrite Hcalls; [| reflexivity | exact slow_transport_working].
  reflexivity.
Defined.

(** C2, as the code has it: a delivery attempt that succeeds makes one
    [sendmail] call per recipient, in the order of the recipient list, the
    call for a recipient carrying the message whose [To:] line names that
    recipient.  For a job with a single recipient this is one call,
    addressed to that recipient. *)
Theorem one_sendmail_per_recipient settings tr j st st' :
  send_email_body settings tr (to_emails j) (subject j) (message j) st
  = (Ret tt, st') ->
  exists sent,
    calls st' = calls st ++ opening_calls settings ++ sent
    /\ length sent = length (to_emails j)
    /\ (forall n email, to_emails j !! n = Some email ->
        exists to_addrs,
          sent !! n = Some (sendmail (API_SMTP_SENDER settings) to_addrs
                              (mail_to_send settings email
                                 (subject j) (message j))))
    /\ (forall email, to_emails j = [email] ->
        sent = [sendmail (API_SMTP_SENDER settings) [email]
                  (mail_to_send settings email (subject j) (message j))]).
Proof.
  intros Hrun. destruct (body_returned_calls settings tr j st st' Hrun)
    as [Hc _].
  eexists. split; [exact Hc |]. split; [by rewrite length_map |]. split.
  - intros n email Hn. exists (to_emails j).
    by rewrite list_lookup_fmap, Hn.
  - intros email ->. reflexivity.
Qed.

Lemma one_sendmail_per_recipient_witness :
  exists st' sent,
    send_email_body configured slow_transport
      (to_emails job_c) (subject job_c) (message job_c) initial
    = (Ret tt, st')
    /\ calls st' = opening_calls configured ++ sent
    /\ length sent = 1%nat.
Proof.
  eexists.
  destruct (one_sendmail_per_recipient configured slow_transport job_c initial
              (snd (send_email_body configured slow_transport
                      (to_emails job_c) (subject job_c) (message job_c)
                      initial)))
    as (sent & Hc & Hlen & _); [reflexivity |].
  exists sent. split; [reflexivity |]. split; [exact Hc | exact Hlen].
Defined.

(** C2, as stated, fails: the successful delivery of a job with two
    recipients does not consist of a single [sendmail] call. *)
Lemma two_recipients_two_sendmail_calls :
  ~ single_send_call configured slow_transport job_ab initial.
Proof.
  intros H. destruct (H _ eq_refl) as [msg Hmsg].
  vm_compute in Hmsg. discriminate.
Qed.

(** ** Properties of the dedup ledger *)

Lemma filter_by_spec u i k row :
  filter_by u i k row = true <-> key_of row = (u, i, k).
Proof.
  unfold filter_by, key_of. rewrite !andb_true_iff, !String.eqb_eq.
  split; [intros [[-> ->] ->]; reflexivity | intros [= -> -> ->]; done].
Qed.

Lemma find_filter_by_spec u i k rows :
  is_Some (List.find (filter_by u i k) rows)
  <-> (u, i, k) ∈ key_of <$> rows.
Proof.
  induction rows as [| row rows IH]; simpl.
  - split; [by intros [? ?] | by intros ?%elem_of_nil].
  - rewrite elem_of_cons. destruct (filter_by u i k row) eqn:Hrow.
    + apply filter_by_spec in Hrow. split; [by left | by eexists].
    + rewrite IH. split; [by right |]. intros [Heq | Hin]; [| done].
      symmetry in Heq. apply filter_by_spec in Heq. congruence.
Qed.

(** The query is a read: it returns whether a matching row is stored and
    leaves the state as it was. *)
Lemma exists_run u i k st :
  exists b,
    notification_sent_record_exists u i k st = (Ret b, st)
    /\ (b = true <-> (u, i, k) ∈ key_of <$> table st).
Proof.
  unfold notification_sent_record_exists, session_query_first.
  rewrite bind_run.
  pose proof (find_filter_by_spec u i k (table st)) as Hfind.
  destruct (List.find _ _); eexists; (split; [reflexivity |]);
    rewrite <- Hfind.
  - split; [by eexists | done].
  - split; [done | by intros [? ?]].
Qed.

Lemma record_all_run keys st :
  record_all keys st = (Ret tt, set_table (table st ++ (row_of <$> keys)) st).
Proof.
  unfold record_all. revert st.
  induction keys as [| [[u i] k] keys IH]; intros st; simpl.
  - rewrite app_nil_r. by destruct st.
  - rewrite bind_run. unfold notification_sent_record_add at 1.
    unfold session_add_commit. rewrite IH. simpl.
    by rewrite <- app_assoc.
Qed.

Lemma key_of_row_of key : key_of (row_of key) = key.
Proof. by destruct key as [[u i] k]. Qed.

Lemma keys_of_rows (keys : list (string * string * string)) :
  key_of <$> (row_of <$> keys) = keys.
Proof.
  induction keys as [| key keys IH]; [done |].
  by rewrite !fmap_cons, key_of_row_of, IH.
Qed.

(** C6: the [exists] query of the ledger returns whether a row with the
    key triple is stored, and leaves the store as it was.  After any
    sequence of [record] calls it is true exactly if it was true before
    or one of the calls had this triple: false as long as no record with
    the triple has been made, true from the first one on. *)
Theorem exists_is_a_pure_read u i k keys st :
  exists b st' b',
    notification_sent_record_exists u i k st = (Ret b, st)
    /\ (b = true <-> (u, i, k) ∈ key_of <$> table st)
    /\ record_all keys st = (Ret tt, st')
    /\ notification_sent_record_exists u i k st' = (Ret b', st')
    /\ (b' = true <-> b = true \/ (u, i, k) ∈ keys).
Proof.
  destruct (exists_run u i k st) as (b & Hb & Hbt).
  destruct (exists_run u i k
              (set_table (table st ++ (row_of <$> keys)) st))
    as (b' & Hb' & Hbt').
  exists b, (set_table (table st ++ (row_of <$> keys)) st), b'.
  split; [exact Hb |]. split; [exact Hbt |].
  split; [apply record_all_run |]. split; [exact Hb' |].
  rewrite Hbt', Hbt. simpl.
  by rewrite fmap_app, elem_of_app, keys_of_rows.
Qed.

(** C8: recording a key triple twice gives every later [exists] query,
    for any triple and after any further [record] calls, the result it
    has after recording the triple once, although the second call stores
    a second row. *)
Theorem record_twice_reads_as_once u i k keys u' i' k' st :
  exists st1 st2 b,
    (notification_sent_record_add u i k ;;
     record_all keys ;;
     notification_sent_record_exists u' i' k') st = (Ret b, st1)
    /\ (notification_sent_record_add u i k ;;
        notification_sent_record_add u i k ;;
        record_all keys ;;
        notification_sent_record_exists u' i' k') st = (Ret b, st2)
    /\ length (table st2) = S (length (table st1)).
Proof.
  rewrite !bind_run. unfold notification_sent_record_add, session_add_commit.
  rewrite !bind_run, !record_all_run.
  set (st1 := set_table _ (set_table _ st)).
  set (st2 := set_table _ (set_table _ (set_table _ st))).
  destruct (exists_run u' i' k' st1) as (b1 & Hb1 & Hbt1).
  destruct (exists_run u' i' k' st2) as (b2 & Hb2 & Hbt2).
  exists st1, st2, b1. rewrite Hb1, Hb2. split; [reflexivity |].
  assert (b2 = b1) as ->.
  { apply Bool.eq_true_iff_eq. rewrite Hbt1, Hbt2. subst st1 st2. simpl.
    rewrite !fmap_app, !elem_of_app. simpl. rewrite !list_elem_of_singleton.
    tauto. }
  split; [reflexivity |]. subst st1 st2. simpl.
  rewrite !length_app. simpl. lia.
Qed.

(** ** Properties of the status computation *)

Section Status.

Import Healthcheck.

Variable now : Z.

Lemma online_latest stats latest seen :
  last stats = Some latest -> latest !! "seen" = Some (JNum seen) ->
  online now stats = Ret (now - seen <? 120)%Z.
Proof. intros Hlast Hseen. unfold online. by rewrite Hlast, Hseen. Qed.

Lemma online_timestamped data worker_id stats :
  timestamped data -> data !! worker_id = Some stats ->
  exists b, online now stats = Ret b.
Proof.
  intros Hts Hw. destruct (last stats) as [latest |] eqn:Hlast.
  - destruct (Hts _ _ _ Hw Hlast) as [seen Hseen].
    eexists. by eapply online_latest.
  - exists false. unfold online. by rewrite Hlast.
Qed.

(** The loop returns a count that exceeds its start value exactly if one
    of the workers it visits is online. *)
Lemma count_online_spec items :
  (forall worker_id stats, (worker_id, stats) ∈ items ->
   exists b, online now stats = Ret b) ->
  forall online_count, exists n,
    count_online now items online_count = Ret n
    /\ (online_count <= n)%nat
    /\ ((online_count < n)%nat <->
        exists worker_id stats,
          (worker_id, stats) ∈ items /\ online now stats = Ret true).
Proof.
  induction items as [| [worker_id stats] items IH]; intros Hdef acc; simpl.
  - exists acc. split; [done |]. split; [lia |].
    split; [lia |]. by intros (? & ? & ?%elem_of_nil & _).
  - destruct (Hdef worker_id stats) as [b Hb]; [by left |].
    assert (forall w s, (w, s) ∈ items -> exists b, online now s = Ret b)
      as Hdef' by (intros w s Hin; apply (Hdef w s); by right).
    rewrite Hb. destruct b.
    + destruct (IH Hdef' (S acc)) as (n & Hrun & Hle & _).
      exists n. split; [done |]. split; [lia |].
      split; [| lia]. intros _. exists worker_id, stats. split; [by left | done].
    + destruct (IH Hdef' acc) as (n & Hrun & Hle & Hiff).
      exists n. split; [done |]. split; [lia |].
      rewrite Hiff. split.
      * intros (w & s & Hin & Hon). exists w, s. split; [by right | done].
      * intros (w & s & Hin & Hon). exists w, s. split; [| done].
        apply elem_of_cons in Hin as [[= -> ->] | Hin]; [congruence | done].
Qed.

(** C4: a worker with at least one report is counted online exactly if
    the [seen] timestamp of its latest report is less than 120 time units
    before the time of the query, so it is online when last seen 119 units
    ago and offline when last seen 121 units ago; and the workers status
    of the answer is "ok" if at least one worker is online and "error"
    otherwise. *)
Theorem online_within_120_units db_probe data :
  timestamped data ->
  (forall worker_id stats latest seen,
     data !! worker_id = Some stats -> last stats = Some latest ->
     latest !! "seen" = Some (JNum seen) ->
     exists b, online now stats = Ret b
               /\ (b = true <-> (now - seen < 120)%Z)
               /\ (seen = (now - 119)%Z -> b = true)
               /\ (seen = (now - 121)%Z -> b = false))
  /\ exists response,
       get_status db_probe now data = Ret response
       /\ (workers (content response) = "ok" <->
           exists worker_id stats,
             data !! worker_id = Some stats /\ online now stats = Ret true)
       /\ (workers (content response) = "error" <->
           ~ exists worker_id stats,
               data !! worker_id = Some stats /\ online now stats = Ret true).
Proof.
  intros Hts. split.
  - intros worker_id stats latest seen _ Hlast Hseen.
    exists (now - seen <? 120)%Z. split; [by eapply online_latest |].
    rewrite Z.ltb_lt. split; [done |].
    split; [intros ->; lia |]. intros ->. apply Z.ltb_ge. lia.
  - destruct (count_online_spec (map_to_list data)) with (online_count := 0%nat)
      as (n & Hrun & _ & Hiff).
    { intros w s Hin%elem_of_map_to_list. by eapply online_timestamped. }
    unfold get_status. rewrite Hrun. eexists. split; [reflexivity |]. simpl.
    assert ((exists w s, (w, s) ∈ map_to_list data /\ online now s = Ret true)
            <-> exists w s, data !! w = Some s /\ online now s = Ret true)
      as Hmap.
    { split; intros (w & s & Hin & Hon); exists w, s;
        (split; [by apply elem_of_map_to_list | done]). }
    rewrite <- Hmap, <- Hiff.
    destruct (0 <? n)%nat eqn:Hn.
    + apply Nat.ltb_lt in Hn. split; [done |]. split; [done | tauto].
    + apply Nat.ltb_ge in Hn. split; [split; [done | lia] |].
      split; [lia | done].
Qed.

End Status.

Lemma online_within_120_units_witness :
  exists response,
    Healthcheck.get_status None 1000 Healthcheck.example_data = Ret response
    /\ Healthcheck.workers (Healthcheck.content response) = "ok".
Proof.
  assert (Healthcheck.timestamped Healthcheck.example_data) as Hts.
  { intros w stats latest Hw Hlast. unfold Healthcheck.example_data in Hw.
    apply lookup_insert_Some in Hw as [[_ <-] | [_ Hw]].
    - injection Hlast as <-. by eexists.
    - apply lookup_insert_Some in Hw as [[_ <-] | [_ Hw]]; [| done].
      injection Hlast as <-. by eexists. }
  destruct (online_within_120_units 1000 None Healthcheck.example_data Hts)
    as (Hworker & response & Hrun & Hok & _).
  exists response. split; [exact Hrun |]. apply Hok.
  exists "gpu-1", [ {[ "seen" := Healthcheck.JNum 100 ]};
                    {[ "seen" := Healthcheck.JNum 881 ]} ].
  split; reflexivity.
Defined.

(** The scenario of the specification: three reports of one worker at
    times 0, 10 and 20, and a query at time 25. *)
Example three_reports_online_at_25 :
  Healthcheck.get_status None 25
    {[ "gpu-1" := [ {[ "seen" := Healthcheck.JNum 0 ]};
                    {[ "seen" := Healthcheck.JNum 10 ]};
                    {[ "seen" := Healthcheck.JNum 20 ]} ] ]}
  = Ret {| Healthcheck.content :=
             {| Healthcheck.backend := "ok"; Healthcheck.database := "ok";
                Healthcheck.workers := "ok";
                Healthcheck.workers_online := 1 |};
           Healthcheck.status_code := 200 |}.
Proof. reflexivity. Qed.

(** The window is open at its far end: a worker last seen exactly 120
    time units ago is offline. *)
Example seen_120_units_ago_is_offline :
  Healthcheck.online 1000 [ {[ "seen" := Healthcheck.JNum 880 ]} ] = Ret false.
Proof. reflexivity. Qed.

(** ** Properties of the convenience senders *)

Lemma append_assoc (a b c : string) : (a +:+ b) +:+ c = a +:+ (b +:+ c).
Proof.
  induction a as [| x a IH]; [done |].
  change (String x ((a +:+ b) +:+ c) = String x (a +:+ b +:+ c)).
  by f_equal.
Qed.

Section Render.

Variable kwargs : gmap string pyval.

(** A field that is not supplied makes [render] raise, wherever it is. *)
Lemma render_missing items name :
  In (Replacement name) items -> kwargs !! name = None ->
  ~ In Beyond items ->
  exists e, render kwargs items = Raise e.
Proof.
  intros Hin Hnone. induction items as [| it items IH]; [done |].
  intros Hplain. simpl in Hin, Hplain.
  assert (~ In Beyond items) as Hplain' by tauto.
  destruct it as [c | field | msg |]; simpl.
  - destruct Hin as [Heq | Hin]; [done |].
    destruct (IH Hin Hplain') as [e ->]. by exists e.
  - destruct (positional field); [by eexists |].
    destruct (kwargs !! field) as [v |] eqn:Hv; [| by eexists].
    destruct Hin as [Heq | Hin]; [injection Heq as ->; congruence |].
    destruct (IH Hin Hplain') as [e ->]. by exists e.
  - by eexists.
  - tauto.
Qed.

(** With every field supplied and nothing malformed, [render] returns. *)
Lemma render_total items :
  keywords_only kwargs ->
  (forall name, In (Replacement name) items -> is_Some (kwargs !! name)) ->
  (forall msg, ~ In (Malformed msg) items) -> ~ In Beyond items ->
  exists s, render kwargs items = Ret s.
Proof.
  intros Hkw. induction items as [| it items IH]; intros Hsup Hwf Hplain;
    [by eexists |].
  destruct IH as [s Hs].
  { intros name Hin. apply Hsup. by right. }
  { intros msg Hin. apply (Hwf msg). by right. }
  { intros Hin. apply Hplain. by right. }
  destruct it as [c | field | msg |]; simpl.
  - rewrite Hs. by eexists.
  - destruct (Hsup field) as [v Hv]; [by left |].
    rewrite (Hkw field) by (by exists v). rewrite Hv, Hs. by eexists.
  - destruct (Hwf msg). by left.
  - destruct Hplain. by left.
Qed.

(** Every value substituted for a field occurs in what [render] returns. *)
Lemma render_contains items s name v :
  render kwargs items = Ret s ->
  In (Replacement name) items -> kwargs !! name = Some v ->
  occurs_in (str v) s.
Proof.
  intros Hrun Hin Hv. revert s Hrun.
  induction items as [| it items IH]; intros s Hrun; [done |].
  destruct it as [c | field | msg |]; simpl in Hrun, Hin.
  - destruct Hin as [Heq | Hin]; [done |].
    destruct (render kwargs items) as [s' | |]; [| done | done].
    injection Hrun as <-. destruct (IH Hin s' eq_refl) as (b & a & ->).
    by exists (String c b), a.
  - destruct (positional field); [done |].
    destruct (kwargs !! field) as [w |] eqn:Hw; [| done].
    destruct (render kwargs items) as [s' | |]; [| done | done].
    injection Hrun as <-. destruct Hin as [Heq | Hin].
    + injection Heq as ->. assert (w = v) as -> by congruence.
      by exists EmptyString, s'.
    + destruct (IH Hin s' eq_refl) as (b & a & ->).
      exists (str w +:+ b), a. by rewrite append_assoc.
  - done.
  - done.
Qed.

End Render.

(** A sender that formats and then calls [add] keeps its contract. *)
Lemma format_then_add settings template kwargs to subj :
  plain template -> keywords_only kwargs ->
  loud_or_complete template kwargs
    (message ← lift (format template kwargs); add settings to subj message)
    (add settings to subj).
Proof.
  intros Hplain Hkw. split.
  - intros name st Href Hnone.
    destruct (render_missing kwargs _ name Href Hnone Hplain) as [e He].
    exists e. rewrite bind_run. unfold lift, format. by rewrite He.
  - intros Hwf Hsup.
    destruct (render_total kwargs (markup Text template) Hkw Hsup Hwf Hplain)
      as [message Hm].
    exists message. split; [exact Hm |]. unfold format in Hm. split.
    + intros st. rewrite bind_run. unfold lift, format. by rewrite Hm.
    + intros name v Href Hv. by eapply render_contains.
Qed.

Lemma keywords_only_list (l : list (string * pyval)) :
  Forall (fun p => positional (fst p) = None) l ->
  keywords_only (list_to_map l).
Proof.
  intros Hall name [v Hv]. apply elem_of_list_to_map_2 in Hv.
  rewrite Forall_forall in Hall. by apply (Hall (name, v)).
Qed.

Lemma quota_alert_keywords customer_name usage_percent blocks_purchased
    minutes_included minutes_consumed remaining_minutes :
  keywords_only
    (quota_alert_kwargs customer_name usage_percent blocks_purchased
       minutes_included minutes_consumed remaining_minutes).
Proof. apply keywords_only_list. by repeat constructor. Qed.

Lemma weekly_usage_report_keywords customer_name total_users transcribed_files
    transcribed_minutes transcribed_minutes_external blocks_purchased
    blocks_consumed minutes_included remaining_minutes overage_minutes :
  keywords_only
    (weekly_usage_report_kwargs customer_name total_users transcribed_files
       transcribed_minutes transcribed_minutes_external blocks_purchased
       blocks_consumed minutes_included remaining_minutes overage_minutes).
Proof. apply keywords_only_list. by repeat constructor. Qed.

(** Absence of [Beyond], checked by computation. *)
Lemma plain_by_check template :
  forallb (fun it => match it with Beyond => false | _ => true end)
    (markup Text template) = true ->
  plain template.
Proof.
  unfold plain. intros Hall Hin. rewrite forallb_forall in Hall.
  by specialize (Hall Beyond Hin).
Qed.

(** On templates of bare names, in the embedding of [format] that knows
    nothing else: [send_quota_alert] and [send_weekly_usage_report]
    format their template before [add] is entered.  If the template
    names a field the sender does not supply, the call raises and nothing
    is enqueued or logged; if the template is well formed and every field
    it names is supplied, the call is [add] with a message in which the
    value of every field named occurs. *)
Theorem senders_fail_loudly_or_render_all settings to_email
    customer_name usage_percent blocks_purchased minutes_included
    minutes_consumed remaining_minutes
    total_users transcribed_files transcribed_minutes
    transcribed_minutes_external blocks_consumed overage_minutes :
  plain (tpl_message (NOTIFICATION_MAIL_QUOTA_ALERT settings)) ->
  plain (tpl_message (NOTIFICATION_MAIL_WEEKLY_USAGE_REPORT settings)) ->
  loud_or_complete
    (tpl_message (NOTIFICATION_MAIL_QUOTA_ALERT settings))
    (quota_alert_kwargs customer_name usage_percent blocks_purchased
       minutes_included minutes_consumed remaining_minutes)
    (send_quota_alert settings to_email customer_name usage_percent
       blocks_purchased minutes_included minutes_consumed remaining_minutes)
    (add settings [to_email]
       (tpl_subject (NOTIFICATION_MAIL_QUOTA_ALERT settings)))
  /\ loud_or_complete
       (tpl_message (NOTIFICATION_MAIL_WEEKLY_USAGE_REPORT settings))
       (weekly_usage_report_kwargs customer_name total_users
          transcribed_files transcribed_minutes transcribed_minutes_external
          blocks_purchased blocks_consumed minutes_included
          remaining_minutes overage_minutes)
       (send_weekly_usage_report settings to_email customer_name total_users
          transcribed_files transcribed_minutes transcribed_minutes_external
          blocks_purchased blocks_consumed minutes_included
          remaining_minutes overage_minutes)
       (add settings [to_email]
          (tpl_subject (NOTIFICATION_MAIL_WEEKLY_USAGE_REPORT settings))).
Proof.
  intros Hq Hw. split.
  - apply format_then_add; [exact Hq | apply quota_alert_keywords].
  - apply format_then_add; [exact Hw | apply weekly_usage_report_keywords].
Qed.

Lemma senders_fail_loudly_or_render_all_witness :
  exists e,
    send_quota_alert misconfigured "admin@example.org" "ACME" 96 10 40000
      38400 1600 initial
    = (Raise e, initial).
Proof.
  destruct (senders_fail_loudly_or_render_all misconfigured
              "admin@example.org" "ACME" 96 10 40000 38400 1600
              12 30 500 20 "9.6" 0)
    as [[Hloud _] _]; [by apply plain_by_check | by apply plain_by_check |].
  apply (Hloud "customer"); [| reflexivity].
  unfold refers_to. vm_compute. by left.
Defined.

(** The scenario of the specification: a quota alert at 96 percent, sent
    through a working transport, is one [sendmail] call to one recipient,
    and the message has the six values. *)
Example quota_alert_end_to_end :
  (send_quota_alert configured "admin@example.org" "ACME" 96 10 40000
     38400 1600 ;;
   handler configured slow_transport 2) initial
  = (Ret tt,
     {| queue := [];
        log := [(INFO, "Email sent to admin@example.org")];
        calls :=
          opening_calls configured ++
          [sendmail "scribe@example.org" ["admin@example.org"]
             (mail_to_send configured "admin@example.org" "Quota alert"
                "ACME used 96% of 10 blocks: 38400 of 40000 minutes, 1600 left.")];
        clock := 50;
        timers := [{| armed_at := 0; interval := 3 |}];
        table := [] |}).
Proof. vm_compute. reflexivity. Qed.

(** ** The convenience senders under the full format language *)

Section FullFormat.

Import StringFormat.

Variable py : builtins.
Variable kwargs : gmap string pyval.

Lemma of_sum_not_stuck {A : Type} (r : exn + A) : of_sum r <> Stuck.
Proof. by destruct r. Qed.

Lemma get_integer_not_stuck first : get_integer first <> Stuck.
Proof.
  unfold get_integer. destruct first as [| c first]; [done |].
  destruct (NilEmpty.uint_of_string _); [| done].
  by destruct (_ <=? _)%N.
Qed.

Lemma get_field_object_not_stuck field_name :
  get_field_object kwargs field_name <> Stuck.
Proof.
  unfold get_field_object.
  destruct (field_name_split field_name) as [first acc].
  pose proof (get_integer_not_stuck first) as Hint.
  destruct (get_integer first) as [index | |]; [| done | done].
  destruct (positional_index first index); [done |].
  by destruct (kwargs !! first).
Qed.

(** A field that yields a value starts from a keyword that is supplied. *)
Lemma get_field_object_inv field_name v accessors :
  get_field_object kwargs field_name = Ret (v, accessors) ->
  kwargs !! first_of field_name = Some v
  /\ accessors = accessors_of field_name.
Proof.
  unfold get_field_object, first_of, accessors_of.
  destruct (field_name_split field_name) as [first acc]. simpl.
  destruct (get_integer first) as [index | |]; [| done | done].
  destruct (positional_index first index); [done |].
  destruct (kwargs !! first) as [w |]; [| done].
  by intros [= -> ->].
Qed.

Lemma get_field_object_missing field_name :
  kwargs !! first_of field_name = None ->
  exists e, get_field_object kwargs field_name = Raise e.
Proof.
  intros Hnone.
  pose proof (get_field_object_not_stuck field_name) as Hns.
  destruct (get_field_object kwargs field_name) as [[v acc] | e |] eqn:Hget;
    [| by exists e | done].
  apply get_field_object_inv in Hget as [Hv _]. congruence.
Qed.

Section Expand.

Variable expand : string -> outcome string.
Hypothesis expand_not_stuck : forall spec, expand spec <> Stuck.

Lemma output_markup_not_stuck field_name conversion format_spec :
  output_markup py kwargs expand field_name conversion format_spec <> Stuck.
Proof.
  unfold output_markup.
  pose proof (get_field_object_not_stuck field_name) as Hns.
  destruct (get_field_object kwargs field_name) as [[v acc] | e |];
    [| done | done].
  destruct (bare acc conversion format_spec); [done |].
  destruct (resolve py v acc conversion) as [e | obj]; [done |].
  destruct (needs_expanding format_spec).
  - pose proof (expand_not_stuck format_spec) as Hex.
    destruct (expand format_spec); [apply of_sum_not_stuck | done | done].
  - apply of_sum_not_stuck.
Qed.

Lemma do_markup_not_stuck items : do_markup py kwargs expand items <> Stuck.
Proof.
  induction items as [| [c | fn conv fs | msg] items IH]; simpl; [done | | | done].
  - by destruct (do_markup py kwargs expand items).
  - pose proof (output_markup_not_stuck fn conv fs) as Hns.
    destruct (output_markup py kwargs expand fn conv fs); [| done | done].
    by destruct (do_markup py kwargs expand items).
Qed.

(** What a field that has a text went through. *)
Lemma output_markup_inv field_name conversion format_spec text :
  output_markup py kwargs expand field_name conversion format_spec = Ret text ->
  exists v,
    kwargs !! first_of field_name = Some v
    /\ (needs_expanding format_spec = true ->
        exists spec, expand format_spec = Ret spec).
Proof.
  unfold output_markup.
  destruct (get_field_object kwargs field_name) as [[v acc] | e |] eqn:Hget;
    [| done | done].
  apply get_field_object_inv in Hget as [Hv ->]. intros Hout.
  exists v. split; [exact Hv |]. intros Hneeds.
  destruct (bare _ conversion format_spec) eqn:Hbare.
  - unfold bare in Hbare.
    destruct (accessors_of field_name), conversion, format_spec; done.
  - destruct (resolve py v _ conversion) as [e | obj]; [done |].
    rewrite Hneeds in Hout.
    destruct (expand format_spec) as [spec | |]; [by exists spec | done | done].
Qed.

End Expand.

Lemma build_string_not_stuck depth input :
  build_string py kwargs depth input <> Stuck.
Proof.
  revert input. induction depth as [| depth IH]; intros input; [done |].
  simpl. by apply do_markup_not_stuck.
Qed.

Lemma format_not_stuck template :
  do_string_format py kwargs template <> Stuck.
Proof. apply build_string_not_stuck. Qed.

(** Text without an opening brace has no field. *)
Lemma markup_no_field m s field_name conversion format_spec :
  needs_expanding s = false -> m = Text \/ m = AfterClose ->
  ~ In (Field field_name conversion format_spec) (MarkupIterator m s).
Proof.
  revert m. induction s as [| c s IH]; intros m Hs Hm.
  - destruct Hm as [-> | ->]; simpl; [tauto |]. by intros [? | []].
  - simpl in Hs. apply orb_false_iff in Hs as [Hc Hs].
    destruct Hm as [-> | ->]; simpl; rewrite ?Hc.
    + destruct (Ascii.eqb c "}").
      * apply IH; auto.
      * intros [? | Hin]; [done |]. revert Hin. apply IH; auto.
    + destruct (Ascii.eqb c "}").
      * intros [? | Hin]; [done |]. revert Hin. apply IH; auto.
      * by intros [? | []].
Qed.

Lemma field_names_no_field depth s :
  needs_expanding s = false -> field_names depth s = [].
Proof.
  intros Hs. destruct depth as [| depth]; [done |]. simpl.
  pose proof (fun fn c fs => markup_no_field Text s fn c fs Hs (or_introl eq_refl))
    as Hno.
  induction (MarkupIterator Text s) as [| it items IH]; [done |].
  simpl. rewrite IH by (intros fn c fs Hin; apply (Hno fn c fs); by right).
  destruct it as [c | fn c fs | msg]; [done | | done].
  destruct (Hno fn c fs). by left.
Qed.

(** A keyword that is referred to and is not supplied makes the items
    raise, wherever it stands. *)
Lemma do_markup_missing name expand names items :
  kwargs !! name = None ->
  (forall spec, expand spec <> Stuck) ->
  (forall spec, needs_expanding spec = false -> names spec = []) ->
  (forall spec, In name (names spec) -> exists e, expand spec = Raise e) ->
  In name (flat_map (item_names names) items) ->
  exists e, do_markup py kwargs expand items = Raise e.
Proof.
  intros Hnone Hns Hplain Hexp.
  induction items as [| [c | fn conv fs | msg] items IH]; simpl; intros Hin;
    [done | | | by eexists].
  - destruct (IH Hin) as [e ->]. by exists e.
  - pose proof (output_markup_not_stuck expand Hns fn conv fs) as Hout_ns.
    destruct (output_markup py kwargs expand fn conv fs) as [text | e |] eqn:Hout;
      [| by exists e | done].
    destruct (output_markup_inv expand fn conv fs text Hout) as (v & Hv & Hspec).
    destruct Hin as [<- | Hin]; [congruence |].
    apply in_app_or in Hin as [Hin | Hin].
    + destruct (needs_expanding fs) eqn:Hneeds.
      * destruct (Hspec eq_refl) as [spec Hs]. destruct (Hexp fs Hin) as [e He].
        congruence.
      * rewrite (Hplain fs Hneeds) in Hin. done.
    + destruct (IH Hin) as [e ->]. by exists e.
Qed.

Lemma build_string_missing name recursion_depth depth template :
  kwargs !! name = None ->
  In name (field_names depth template) ->
  exists e, build_string py kwargs recursion_depth template = Raise e.
Proof.
  intros Hnone. revert depth template.
  induction recursion_depth as [| recursion_depth IH]; intros depth template Hin;
    [by eexists |].
  destruct depth as [| depth]; [done |]. simpl in *.
  apply (do_markup_missing name _ (field_names depth)); auto.
  - apply build_string_not_stuck.
  - intros spec. apply field_names_no_field.
  - intros spec. apply IH.
Qed.

(** The text of every field occurs in what [do_markup] returns. *)
Lemma do_markup_contains expand items message field_name conversion format_spec :
  do_markup py kwargs expand items = Ret message ->
  In (Field field_name conversion format_spec) items ->
  exists text,
    output_markup py kwargs expand field_name conversion format_spec = Ret text
    /\ occurs_in text message.
Proof.
  revert message.
  induction items as [| [c | fn conv fs | msg] items IH]; simpl;
    intros message Hrun Hin; [done | | | done].
  - destruct Hin as [? | Hin]; [done |].
    destruct (do_markup py kwargs expand items) as [s | |]; [| done | done].
    injection Hrun as <-.
    destruct (IH s eq_refl Hin) as (text & Ht & b & a & ->).
    exists text. split; [exact Ht |]. by exists (String c b), a.
  - destruct (output_markup py kwargs expand fn conv fs) as [text | |] eqn:Hout;
      [| done | done].
    destruct (do_markup py kwargs expand items) as [s | |]; [| done | done].
    injection Hrun as <-. destruct Hin as [Heq | Hin].
    + injection Heq as <- <- <-. exists text. split; [exact Hout |].
      by exists EmptyString, s.
    + destruct (IH s eq_refl Hin) as (text' & Ht & b & a & ->).
      exists text'. split; [exact Ht |].
      exists (text +:+ b), a. by rewrite append_assoc.
Qed.

(** The items are rendered exactly if none is malformed and every field
    has a text. *)
Lemma do_markup_returns expand items :
  (exists message, do_markup py kwargs expand items = Ret message)
  <-> (forall msg, ~ In (Malformed msg) items)
      /\ forall field_name conversion format_spec,
           In (Field field_name conversion format_spec) items ->
           exists text,
             output_markup py kwargs expand field_name conversion format_spec
             = Ret text.
Proof.
  induction items as [| [c | fn conv fs | msg] items IH]; simpl.
  - split; [intros _; split; [intros msg [] | intros f cv sp []] | by eexists].
  - split.
    + intros [message Hrun].
      destruct (do_markup py kwargs expand items) as [s | |]; [| done | done].
      destruct IH as [[Hwf Hall] _]; [by eexists |]. split.
      * intros msg [? | Hin]; [done | by apply (Hwf msg)].
      * intros f cv sp [? | Hin]; [done | by apply Hall].
    + intros [Hwf Hall]. destruct IH as [_ [s ->]]; [| by eexists].
      split; [intros msg Hin; apply (Hwf msg); by right |].
      intros f cv sp Hin. apply Hall. by right.
  - split.
    + intros [message Hrun].
      destruct (output_markup py kwargs expand fn conv fs) as [text | |] eqn:Hout;
        [| done | done].
      destruct (do_markup py kwargs expand items) as [s | |]; [| done | done].
      destruct IH as [[Hwf Hall] _]; [by eexists |]. split.
      * intros msg [? | Hin]; [done | by apply (Hwf msg)].
      * intros f cv sp [Heq | Hin]; [| by apply Hall].
        injection Heq as <- <- <-. by exists text.
    + intros [Hwf Hall]. destruct (Hall fn conv fs) as [text ->]; [by left |].
      destruct IH as [_ [s ->]]; [| by eexists].
      split; [intros msg Hin; apply (Hwf msg); by right |].
      intros f cv sp Hin. apply Hall. by right.
  - split; [by intros [message Hrun] |].
    intros [Hwf _]. destruct (Hwf msg). by left.
Qed.

(** A sender that formats and then calls [add] keeps its contract. *)
Lemma full_format_then_add settings template to subj :
  keywords kwargs ->
  raises_or_renders py template kwargs
    (message ← lift (do_string_format py kwargs template);
     add settings to subj message)
    (add settings to subj).
Proof.
  intros Hkw.
  assert (forall name v,
            kwargs !! name = Some v ->
            field_text py kwargs name None "" = Ret (str v)) as Hbare.
  { intros name v Hv. unfold field_text, output_markup.
    by rewrite (Hkw name v Hv). }
  split; [| split; [| split; [| split; [| split]]]].
  - intros name st [depth Href] Hnone.
    destruct (build_string_missing name 2 depth template Hnone Href) as [e He].
    exists e. rewrite bind_run. unfold lift, do_string_format. by rewrite He.
  - intros st. pose proof (format_not_stuck template) as Hns.
    destruct (do_string_format py kwargs template) as [message | e |] eqn:Hrun;
      [| | done].
    + right. by exists message.
    + left. by exists e.
  - apply do_markup_returns.
  - intros message fn conv fs Hrun Hin.
    by apply (do_markup_contains (build_string py kwargs 1)
                (MarkupIterator Text template)).
  - exact Hbare.
  - intros message name v Hrun Hin Hv.
    destruct (do_markup_contains (build_string py kwargs 1)
                (MarkupIterator Text template) message name None "" Hrun Hin)
      as (text & Ht & Hocc).
    unfold field_text in Hbare. rewrite (Hbare name v Hv) in Ht.
    by injection Ht as <-.
Qed.

End FullFormat.


(** A keyword argument is found by its bare name if the name is not
    empty, is not a number and has no accessor in it. *)
Lemma keywords_list (l : list (string * pyval)) :
  Forall (fun p =>
            StringFormat.field_name_split (fst p) = (fst p, EmptyString)
            /\ StringFormat.get_integer (fst p) = Ret None
            /\ fst p <> EmptyString) l ->
  StringFormat.keywords (list_to_map l).
Proof.
  intros Hall name v Hv. pose proof Hv as Hin.
  apply elem_of_list_to_map_2 in Hin. rewrite Forall_forall in Hall.
  destruct (Hall (name, v) Hin) as (Hsplit & Hint & Hne). simpl in *.
  unfold StringFormat.get_field_object. rewrite Hsplit, Hint, Hv.
  by destruct name.
Qed.

Lemma quota_alert_keywords_found customer_name usage_percent blocks_purchased
    minutes_included minutes_consumed remaining_minutes :
  StringFormat.keywords
    (quota_alert_kwargs customer_name usage_percent blocks_purchased
       minutes_included minutes_consumed remaining_minutes).
Proof. apply keywords_list. by repeat constructor. Qed.

Lemma weekly_usage_report_keywords_found customer_name total_users
    transcribed_files transcribed_minutes transcribed_minutes_external
    blocks_purchased blocks_consumed minutes_included remaining_minutes
    overage_minutes :
  StringFormat.keywords
    (weekly_usage_report_kwargs customer_name total_users transcribed_files
       transcribed_minutes transcribed_minutes_external blocks_purchased
       blocks_consumed minutes_included remaining_minutes overage_minutes).
Proof. apply keywords_list. by repeat constructor. Qed.



(** A keyword that is not supplied is a [KeyError] at the call, whether
    the field is a bare name, has a format specification, a conversion or
    an accessor, and whatever Python would do with the value. *)
Example missing_keyword_however_written py st :
  Forall
    (fun template =>
       StringFormat.send_quota_alert py
         (StringFormat.with_quota_message template)
         "admin@example.org" "ACME" 96 10 40000 38400 1600 st
       = (Raise (KeyError "customer"), st))
    ["{customer} is at {usage_percent}%.";
     "{customer:>20} is at {usage_percent}%.";
     "{customer!r} is at {usage_percent}%.";
     "{customer.name} is at {usage_percent}%.";
     "{customer[0]} is at {usage_percent}%."].
Proof. by repeat constructor. Qed.

(** The quota alert of the examples is formatted as before. *)
Example quota_alert_formatted py :
  StringFormat.send_quota_alert py configured "admin@example.org" "ACME" 96 10
    40000 38400 1600 initial
  = add configured ["admin@example.org"] "Quota alert"
      "ACME used 96% of 10 blocks: 38400 of 40000 minutes, 1600 left."
      initial.
Proof. reflexivity. Qed.

(** *** The embedding on bare names is a part of the full one *)

Lemma clean_snoc name c :
  clean name -> Ascii.eqb c "." = false -> Ascii.eqb c "[" = false ->
  clean (name +:+ String c EmptyString).
Proof.
  unfold clean. intros Hname Hdot Hbr.
  induction name as [| a name IH].
  - change (StringFormat.field_name_split (String c EmptyString)
            = (String c EmptyString, EmptyString)).
    simpl. by rewrite Hdot, Hbr.
  - change (StringFormat.field_name_split
              (String a (name +:+ String c EmptyString))
            = (String a (name +:+ String c EmptyString), EmptyString)).
    simpl in *. destruct (Ascii.eqb a "." || Ascii.eqb a "["); [done |].
    destruct (StringFormat.field_name_split name) as [first acc].
    injection Hname as -> ->. by rewrite IH.
Qed.

Section SideBySide.

Variable py : StringFormat.builtins.
Variable kwargs : gmap string pyval.
Variable expand : string -> outcome string.

Local Abbreviation full_render := (StringFormat.do_markup py kwargs expand).

(** A bare name is replaced alike. *)
Lemma replacement_agree name items items' :
  clean name ->
  agree (render kwargs items) (full_render items') ->
  agree (render kwargs (Replacement name :: items))
    (full_render (StringFormat.Field name None "" :: items')).
Proof.
  intros Hclean Hrest. simpl.
  unfold StringFormat.output_markup, StringFormat.get_field_object.
  rewrite Hclean. unfold positional, StringFormat.get_integer.
  destruct name as [| c name].
  - simpl. by eexists.
  - destruct (NilEmpty.uint_of_string (String c name)) as [d |].
    + simpl. destruct (_ <=? _)%N; by eexists.
    + simpl. destruct (kwargs !! String c name) as [v |]; [| by eexists].
      simpl. destruct (render kwargs items) as [s | e |]; simpl in *.
      * by rewrite Hrest.
      * destruct Hrest as [e' ->]. by exists e'.
      * done.
Qed.

Lemma literal_agree c items items' :
  agree (render kwargs items) (full_render items') ->
  agree (render kwargs (Literal c :: items))
    (full_render (StringFormat.Literal c :: items')).
Proof.
  intros Hrest. simpl. destruct (render kwargs items) as [s | e |]; simpl in *.
  - by rewrite Hrest.
  - destruct Hrest as [e' ->]. by exists e'.
  - done.
Qed.

Lemma field_char_agree c name rest :
  (forall m, clean_mode m ->
             agree (render kwargs (markup m rest))
               (full_render (StringFormat.MarkupIterator (full_mode m) rest))) ->
  clean name ->
  agree (render kwargs (field_char c name (fun m' => markup m' rest)))
    (full_render
       match StringFormat.name_char name c with
       | StringFormat.Emit it =>
           it :: StringFormat.MarkupIterator StringFormat.Text rest
       | StringFormat.Go m' => StringFormat.MarkupIterator m' rest
       | StringFormat.Stop msg => [StringFormat.Malformed msg]
       end).
Proof.
  intros IH Hclean. unfold field_char, StringFormat.name_char.
  destruct (Ascii.eqb c "}").
  { apply replacement_agree; [done |]. by apply (IH Text). }
  destruct (Ascii.eqb c "{"); [by eexists |].
  destruct (Ascii.eqb c "[") eqn:Hbr; [done |].
  destruct (Ascii.eqb c ".") eqn:Hdot; [done |].
  destruct (Ascii.eqb c ":"); [done |].
  destruct (Ascii.eqb c "!"); [done |].
  simpl. apply (IH (InField (name +:+ String c EmptyString))).
  by apply clean_snoc.
Qed.

Lemma markup_agree s m :
  clean_mode m ->
  agree (render kwargs (markup m s))
    (full_render (StringFormat.MarkupIterator (full_mode m) s)).
Proof.
  revert m. induction s as [| c rest IH]; intros m Hm.
  - destruct m; simpl; by eexists.
  - destruct m as [| | | name]; simpl.
    + destruct (Ascii.eqb c "{"); [by apply (IH AfterOpen) |].
      destruct (Ascii.eqb c "}"); [by apply (IH AfterClose) |].
      apply literal_agree. by apply (IH Text).
    + destruct (Ascii.eqb c "{").
      * apply literal_agree. by apply (IH Text).
      * by apply field_char_agree.
    + destruct (Ascii.eqb c "}"); [| by eexists].
      apply literal_agree. by apply (IH Text).
    + by apply field_char_agree.
Qed.

End SideBySide.

(** Wherever [format] on bare names has an answer, [format] in full has
    the same: the same text, or an exception. *)
Lemma format_agree py template kwargs :
  agree (format template kwargs)
    (StringFormat.do_string_format py kwargs template).
Proof. by apply (markup_agree py kwargs _ template Text). Qed.

(** So has a sender that formats and then calls [add]. *)
Lemma sender_agree py settings template kwargs to subj st :
  agree_run
    ((message ← lift (format template kwargs);
      add settings to subj message) st)
    ((message ← lift (StringFormat.do_string_format py kwargs template);
      add settings to subj message) st).
Proof.
  rewrite !bind_run. unfold lift.
  pose proof (format_agree py template kwargs) as Hagree.
  destruct (format template kwargs) as [message | e |]; simpl in Hagree.
  - rewrite Hagree.
    by destruct (add settings to subj message st) as [[[] | e |] st'];
      simpl; eauto.
  - destruct Hagree as [e' ->]. by exists e'.
  - done.
Qed.

(** The two embeddings of [send_quota_alert] and of
    [send_weekly_usage_report] agree wherever the one on bare names has
    an answer. *)
Lemma formatting_senders_agree py settings to_email
    customer_name usage_percent blocks_purchased minutes_included
    minutes_consumed remaining_minutes
    total_users transcribed_files transcribed_minutes
    transcribed_minutes_external blocks_consumed overage_minutes st :
  agree_run
    (send_quota_alert settings to_email customer_name usage_percent
       blocks_purchased minutes_included minutes_consumed remaining_minutes st)
    (StringFormat.send_quota_alert py settings to_email customer_name
       usage_percent blocks_purchased minutes_included minutes_consumed
       remaining_minutes st)
  /\ agree_run
       (send_weekly_usage_report settings to_email customer_name total_users
          transcribed_files transcribed_minutes transcribed_minutes_external
          blocks_purchased blocks_consumed minutes_included
          remaining_minutes overage_minutes st)
       (StringFormat.send_weekly_usage_report py settings to_email
          customer_name total_users transcribed_files transcribed_minutes
          transcribed_minutes_external blocks_purchased blocks_consumed
          minutes_included remaining_minutes overage_minutes st).
Proof. split; apply sender_agree. Qed.

(** ** Further properties of the notification queue *)

Lemma add_run settings to subj msg st :
  exists st',
    add settings to subj msg st = (Ret tt, st')
    /\ (length (queue st') <= S (length (queue st)))%nat
    /\ table st' = table st.
Proof.
  unfold add. destruct (truthy _); simpl; eexists;
    (split; [reflexivity |]); simpl; rewrite ?length_app; simpl;
    split; (lia || done).
Qed.

Section Attempts.

Variable settings : Settings.
Variable tr : transport.

Local Abbreviation send := (__notification_send_email settings tr).
Local Abbreviation body := (send_email_body settings tr).

Lemma send_respects (R : relation state) to subj msg :
  PreOrder R ->
  (forall c, respects R (smtp tr c)) ->
  (forall lv text, respects R (logger lv text)) ->
  respects R (send to subj msg).
Proof.
  intros HR Hs Hl.
  apply respects_try_except; [done | | intros e; apply Hl].
  rewrite body_split. apply respects_bind; [done | apply Hs | intros _].
  apply after_context_respects; auto.
Qed.

(** X1: whatever the transport does, [__notification_send_email] returns
    normally; it leaves the queue, the timers and the ledger as they were
    and time does not run backwards. *)
Theorem delivery_attempt_never_raises to subj msg st :
  exists st',
    __notification_send_email settings tr to subj msg st = (Ret tt, st')
    /\ queue st' = queue st
    /\ timers st' = timers st
    /\ table st' = table st
    /\ (clock st <= clock st')%N.
Proof.
  exists (snd (send to subj msg st)). split.
  - rewrite <- (send_returns settings tr to subj msg st).
    by destruct (send to subj msg st).
  - split; [apply queue_blind_queue, send_blind |].
    destruct (send_respects untouched to subj msg untouched_pre
                (smtp_untouched tr) logger_untouched st) as [Ht Hb].
    split; [exact Ht |]. split; [exact Hb |].
    apply (send_respects later to subj msg later_pre
             (smtp_later tr) logger_later st).
Qed.

Lemma smtp_then {B : Type} c (k : M B) st :
  (smtp tr c ;; k) st
  = match failure (tr (calls st) c) with
    | Some e =>
        (Raise e,
         set_transport (calls st ++ [c])
           (clock st + elapsed (tr (calls st) c))%N st)
    | None =>
        k (set_transport (calls st ++ [c])
             (clock st + elapsed (tr (calls st) c))%N st)
    end.
Proof. rewrite bind_run. unfold smtp. by destruct (failure _). Qed.

Lemma loop_step to subj msg email l st :
  recipients_loop settings tr to subj msg (email :: l) st
  = match failure (tr (calls st)
                     (sendmail (API_SMTP_SENDER settings) to
                        (mail_to_send settings email subj msg))) with
    | Some e =>
        (Raise e,
         set_transport
           (calls st ++ [sendmail (API_SMTP_SENDER settings) to
                           (mail_to_send settings email subj msg)])
           (clock st +
            elapsed (tr (calls st)
                       (sendmail (API_SMTP_SENDER settings) to
                          (mail_to_send settings email subj msg))))%N st)
    | None =>
        recipients_loop settings tr to subj msg l
          (set_log (log st ++ [(INFO, "Email sent to " +:+ join ", " to)])
             (set_transport
                (calls st ++ [sendmail (API_SMTP_SENDER settings) to
                                (mail_to_send settings email subj msg)])
                (clock st +
                 elapsed (tr (calls st)
                            (sendmail (API_SMTP_SENDER settings) to
                               (mail_to_send settings email subj msg))))%N
                st))
    end.
Proof.
  unfold recipients_loop. simpl. rewrite !bind_run. unfold smtp.
  by destruct (failure _).
Qed.

Lemma loop_transcript to subj msg l st :
  calls (snd (recipients_loop settings tr to subj msg l st))
  = calls st ++
    fst (transcript tr (calls st)
           (map (fun email =>
                   sendmail (API_SMTP_SENDER settings) to
                     (mail_to_send settings email subj msg)) l))
  /\ fst (recipients_loop settings tr to subj msg l st)
     = match snd (transcript tr (calls st)
                    (map (fun email =>
                            sendmail (API_SMTP_SENDER settings) to
                              (mail_to_send settings email subj msg)) l))
       with
       | Some e => Raise e
       | None => Ret tt
       end.
Proof.
  revert st. induction l as [| email l IH]; intros st.
  - simpl. by rewrite app_nil_r.
  - rewrite loop_step. cbn [map transcript].
    destruct (failure _) as [e |]; [done |].
    match goal with |- context [recipients_loop _ _ _ _ _ l ?s] =>
      destruct (IH s) as [Hc Hr] end.
    cbn [calls set_log set_transport] in Hc, Hr.
    destruct (transcript tr _ _) as [made failed]. cbn [fst snd] in *.
    rewrite Hc, Hr. split; [by rewrite <- app_assoc | done].
Qed.

Lemma body_transcript j st :
  calls (snd (body (to_emails j) (subject j) (message j) st))
  = calls st ++ fst (transcript tr (calls st) (session_calls settings j))
  /\ fst (body (to_emails j) (subject j) (message j) st)
     = match snd (transcript tr (calls st) (session_calls settings j)) with
       | Some e => Raise e
       | None => Ret tt
       end.
Proof.
  rewrite body_split. unfold after_context, session_calls, opening_calls.
  cbn [app transcript].
  rewrite smtp_then. destruct (failure _) as [e |]; [done |].
  rewrite smtp_then. cbn [calls set_transport transcript].
  destruct (failure _) as [e |];
    [by cbn [fst snd calls set_transport]; rewrite <- !app_assoc |].
  rewrite smtp_then. cbn [calls set_transport transcript].
  destruct (failure _) as [e |];
    [by cbn [fst snd calls set_transport]; rewrite <- !app_assoc |].
  rewrite smtp_then. cbn [calls set_transport transcript].
  destruct (failure _) as [e |];
    [by cbn [fst snd calls set_transport]; rewrite <- !app_assoc |].
  match goal with |- context [recipients_loop _ _ ?t ?s ?m ?l ?st0] =>
    destruct (loop_transcript t s m l st0) as [Hc Hr] end.
  cbn [calls set_transport] in Hc, Hr.
  destruct (transcript tr _ _) as [made failed]. cbn [fst snd] in *.
  rewrite Hc, Hr. split; [by rewrite <- !app_assoc | done].
Qed.

Lemma transcript_prefix hist planned :
  fst (transcript tr hist planned) `prefix_of` planned.
Proof.
  revert hist. induction planned as [| c planned IH]; intros hist; simpl.
  - done.
  - destruct (failure _).
    + by exists planned.
    + specialize (IH (hist ++ [c])).
      destruct (transcript tr _ planned) as [made failed]; simpl in *.
      by apply prefix_cons.
Qed.

Lemma transcript_complete hist planned :
  snd (transcript tr hist planned) = None ->
  fst (transcript tr hist planned) = planned.
Proof.
  revert hist. induction planned as [| c planned IH]; intros hist; simpl.
  - done.
  - destruct (failure _); [done |].
    specialize (IH (hist ++ [c])).
    destruct (transcript tr _ planned) as [made failed]; simpl in *.
    intros ->. by rewrite IH.
Qed.

(** X2: one delivery attempt makes the calls of the job's session in
    order and stops with the first call that fails: the calls made are a
    prefix of the session, the whole session if none fails, and the
    failure of the last call made is the one logged as [ERROR]; no error
    is logged if none fails. *)
Theorem delivery_attempt_stops_at_first_failure j st :
  exists st',
    __notification_send_email settings tr
      (to_emails j) (subject j) (message j) st = (Ret tt, st')
    /\ calls st'
       = calls st ++ fst (transcript tr (calls st) (session_calls settings j))
    /\ fst (transcript tr (calls st) (session_calls settings j))
       `prefix_of` session_calls settings j
    /\ match snd (transcript tr (calls st) (session_calls settings j)) with
       | Some e => errors (log st') = errors (log st) ++ [error_entry j e]
       | None =>
           errors (log st') = errors (log st)
           /\ calls st' = calls st ++ session_calls settings j
       end.
Proof.
  destruct (body_transcript j st) as [Hc Hr].
  destruct (body_quiet settings tr (to_emails j) (subject j) (message j) st)
    as [He _].
  unfold __notification_send_email, try_except.
  destruct (body (to_emails j) (subject j) (message j) st) as [r st1].
  cbn [fst snd] in Hc, Hr, He.
  pose proof (transcript_complete (calls st) (session_calls settings j))
    as Hfull.
  pose proof (transcript_prefix (calls st) (session_calls settings j))
    as Hpre.
  destruct (transcript tr (calls st) (session_calls settings j))
    as [made [e |]]; cbn [fst snd] in *; subst r.
  - eexists. split; [reflexivity |]. cbn [calls log set_log].
    split; [exact Hc |]. split; [exact Hpre |].
    rewrite errors_app, He. by destruct j.
  - exists st1. split; [reflexivity |].
    split; [exact Hc |]. split; [exact Hpre |].
    split; [exact He |]. by rewrite Hc, Hfull.
Qed.

Lemma send_sessions to subj msg st :
  sessions (calls (snd (send to subj msg st))) = S (sessions (calls st))
  /\ (length (errors (log (snd (send to subj msg st))))
      <= S (length (errors (log st))))%nat.
Proof.
  destruct (body_quiet settings tr to subj msg st) as [He Hs].
  unfold __notification_send_email, try_except.
  destruct (body to subj msg st) as [[[] | e |] st1]; simpl in *;
    rewrite ?errors_app, ?length_app, ?He, ?Hs; simpl; split; lia.
Qed.

Lemma foldl_delivered_sessions js st :
  credentials_set settings = true ->
  sessions (calls (foldl (delivered settings tr) st js))
  = (sessions (calls st) + length js)%nat
  /\ (length (errors (log (foldl (delivered settings tr) st js)))
      <= length (errors (log st)) + length js)%nat.
Proof.
  intros Hcred. revert st.
  induction js as [| j js IH]; intros st; simpl; [split; lia |].
  destruct (IH (delivered settings tr st j)) as [Hs He].
  assert (delivered settings tr st j
          = snd (send (to_emails j) (subject j) (message j) st)) as Hd.
  { unfold delivered, attempt. by rewrite Hcred. }
  destruct (send_sessions (to_emails j) (subject j) (message j) st)
    as [Hs1 He1].
  rewrite Hs, Hd, Hs1. rewrite Hd in He. split; lia.
Qed.

(** The drain of [js] when every attempt of the cycle fails: one [ERROR]
    entry per job, in the order of [js]. *)
Lemma foldl_delivered_all_fail js st :
  credentials_set settings = true ->
  every_attempt_fails settings tr (calls st) js ->
  exists es,
    length es = length js
    /\ errors (log (foldl (delivered settings tr) st js))
       = errors (log st) ++ zip_with error_entry js es.
Proof.
  intros Hcred. revert st.
  induction js as [| j js IH]; intros st Hall.
  - exists []. simpl. by rewrite app_nil_r.
  - cbn [every_attempt_fails] in Hall. destruct Hall as [Hfail Hrest].
    destruct (body_transcript j st) as [Hc Hr].
    destruct (body_quiet settings tr (to_emails j) (subject j) (message j) st)
      as [Hqe _].
    destruct (body (to_emails j) (subject j) (message j) st) as [r st1] eqn:Hb.
    cbn [fst snd] in Hc, Hr, Hqe.
    destruct (snd (transcript tr (calls st) (session_calls settings j)))
      as [e |]; [| done]. subst r.
    assert (delivered settings tr st j
            = set_log (log st1 ++ [error_entry j e]) st1) as Hd.
    { unfold delivered, attempt. rewrite Hcred.
      rewrite (send_caught settings tr _ _ _ _ _ _ Hb). by destruct j. }
    destruct (IH (delivered settings tr st j)) as (es & Hlen & Herr).
    { rewrite Hd. cbn [calls set_log]. by rewrite Hc. }
    exists (e :: es). cbn [foldl length zip_with]. rewrite Herr, Hd.
    cbn [log set_log]. rewrite errors_app, Hqe. cbn.
    split; [lia |]. by rewrite <- app_assoc.
Qed.

(** X3: with the three SMTP settings present, a drain cycle gives every
    buffered job exactly one delivery attempt, whatever the transport does
    with each of them, and logs at most one error per job. *)
Theorem every_job_is_attempted_once st fuel :
  credentials_set settings = true ->
  (length (queue st) < fuel)%nat ->
  exists st',
    handler settings tr fuel st = (Ret tt, st')
    /\ queue st' = []
    /\ sessions (calls st')
       = (sessions (calls st) + length (queue st))%nat
    /\ (length (errors (log st'))
        <= length (errors (log st)) + length (queue st))%nat.
Proof.
  intros Hcred Hfuel. eexists.
  split; [by apply handler_unroll |]. split; [reflexivity |]. simpl.
  apply (foldl_delivered_sessions (queue st)
           (set_timers
              (timers st ++ [{| armed_at := clock st; interval := 3 |}]) st)
           Hcred).
Qed.

(** X5: without an SMTP host, a sequence of [add] calls queues nothing
    and logs one warning per call, and the next drain cycle makes no
    transport call and logs nothing, whatever is in the buffer. *)
Theorem adds_without_host_only_warn js st fuel :
  truthy (API_SMTP_HOST settings) = false ->
  (length (queue st) < fuel)%nat ->
  exists st1 st2,
    enqueue_all settings js st = (Ret tt, st1)
    /\ queue st1 = queue st
    /\ log st1 = log st ++ replicate (length js) host_warning
    /\ handler settings tr fuel st1 = (Ret tt, st2)
    /\ queue st2 = []
    /\ calls st2 = calls st /\ log st2 = log st1.
Proof.
  intros Hhost Hfuel.
  assert (credentials_set settings = false) as Hno
    by (unfold credentials_set; by rewrite Hhost).
  assert (enqueue_all settings js st
          = (Ret tt,
             set_log (log st ++ replicate (length js) host_warning) st))
    as Henq.
  { unfold enqueue_all. revert st Hfuel.
    induction js as [| j js IH]; intros st Hfuel; simpl.
    - rewrite app_nil_r. by destruct st.
    - rewrite bind_run. unfold add at 1. rewrite Hhost. simpl.
      rewrite IH by done. simpl. by rewrite <- app_assoc. }
  eexists. eexists. split; [exact Henq |].
  split; [reflexivity |]. split; [reflexivity |].
  split; [apply handler_unroll; simpl; lia |].
  rewrite foldl_delivered_no_credentials by exact Hno. by simpl.
Qed.

(** X6: the queue and the ledger do not touch each other: [add] and a
    drain cycle leave the ledger table as it was, so every [exists] query
    answers after them as before, and [record] leaves the buffer, the log
    and the transport as they were. *)
Theorem queue_and_ledger_are_independent to subj msg u i k st fuel :
  (length (queue st) < S fuel)%nat ->
  exists st1 st2 st3 b,
    add settings to subj msg st = (Ret tt, st1)
    /\ handler settings tr (S (S fuel)) st1 = (Ret tt, st2)
    /\ table st1 = table st /\ table st2 = table st
    /\ notification_sent_record_exists u i k st = (Ret b, st)
    /\ notification_sent_record_exists u i k st2 = (Ret b, st2)
    /\ notification_sent_record_add u i k st = (Ret tt, st3)
    /\ queue st3 = queue st /\ log st3 = log st /\ calls st3 = calls st
    /\ timers st3 = timers st.
Proof.
  intros Hfuel.
  destruct (add_run settings to subj msg st) as (st1 & Hadd & Hq1 & Ht1).
  exists st1. eexists. eexists.
  destruct (exists_run u i k st) as (b & Hb & Hbt).
  exists b. split; [exact Hadd |].
  split; [apply handler_unroll; lia |].
  split; [exact Ht1 |].
  set (st0 := set_timers _ st1).
  destruct (foldl_delivered_respects settings tr untouched (queue st1) st0
              untouched_pre (smtp_untouched tr) logger_untouched)
    as [_ Htab].
  assert (table (set_queue [] (foldl (delivered settings tr) st0 (queue st1)))
          = table st) as Ht2 by (simpl; rewrite Htab; exact Ht1).
  split; [exact Ht2 |]. split; [exact Hb |]. split.
  - destruct (exists_run u i k
                (set_queue [] (foldl (delivered settings tr) st0 (queue st1))))
      as (b' & Hb' & Hbt').
    rewrite Hb'. f_equal. f_equal. apply Bool.eq_true_iff_eq.
    by rewrite Hbt, Hbt', Ht2.
  - by split.
Qed.

End Attempts.

(** C1: after any sequence of [add] calls, a drain cycle in which every
    delivery attempt fails, at whatever call of its session, returns
    normally and leaves the buffer empty.  With the three SMTP settings
    present every buffered job gets exactly one attempt, and each failure
    is caught and logged as one [ERROR] entry naming the job's recipients
    and the error, in the order of the jobs; otherwise nothing is
    attempted and nothing is logged. *)
Theorem failed_deliveries_are_dropped settings tr js st fuel :
  (credentials_set settings = true ->
   every_attempt_fails settings tr (calls st) (queue st ++ js)) ->
  (length (queue st) + length js < fuel)%nat ->
  exists st1 st2,
    enqueue_all settings js st = (Ret tt, st1)
    /\ handler settings tr fuel st1 = (Ret tt, st2)
    /\ queue st2 = []
    /\ if credentials_set settings then
         queue st1 = queue st ++ js
         /\ sessions (calls st2)
            = (sessions (calls st1) + length (queue st1))%nat
         /\ exists es,
              length es = length (queue st1)
              /\ errors (log st2)
                 = errors (log st1) ++ zip_with error_entry (queue st1) es
       else calls st2 = calls st1 /\ log st2 = log st1.
Proof.
  intros Hfail Hfuel.
  destruct (truthy (API_SMTP_HOST settings)) eqn:Hhost.
  - exists (set_queue (queue st ++ js) st). eexists.
    split; [by apply enqueue_all_host |].
    split; [apply handler_unroll; simpl; rewrite length_app; lia |].
    split; [reflexivity |].
    destruct (credentials_set settings) eqn:Hcred.
    + destruct (foldl_delivered_sessions settings tr (queue st ++ js)
                  (set_timers
                     (timers st ++ [{| armed_at := clock st; interval := 3 |}])
                     (set_queue (queue st ++ js) st)) Hcred)
        as [Hs _].
      destruct (foldl_delivered_all_fail settings tr (queue st ++ js)
                  (set_timers
                     (timers st ++ [{| armed_at := clock st; interval := 3 |}])
                     (set_queue (queue st ++ js) st)) Hcred (Hfail eq_refl))
        as (es & Hlen & He).
      split; [reflexivity |]. split; [exact Hs |].
      exists es. split; [exact Hlen | exact He].
    + by rewrite foldl_delivered_no_credentials.
  - destruct (enqueue_all_no_host settings js st Hhost)
      as (st1 & Henq & Hq & _ & _).
    exists st1. eexists. split; [exact Henq |].
    split; [apply handler_unroll; rewrite Hq; lia |].
    split; [reflexivity |].
    assert (credentials_set settings = false) as Hno
      by (unfold credentials_set; by rewrite Hhost).
    rewrite Hno, foldl_delivered_no_credentials by exact Hno.
    split; reflexivity.
Qed.

Lemma failed_deliveries_are_dropped_witness :
  every_attempt_fails configured refuses_recipients [] [job_ab; job_c]
  /\ exists st2,
       handler configured refuses_recipients 3
         (set_queue [job_ab; job_c] initial)
       = (Ret tt, st2)
       /\ queue st2 = []
       /\ sessions (calls st2) = 2%nat
       /\ exists es,
            errors (log st2) = zip_with error_entry [job_ab; job_c] es.
Proof.
  assert (every_attempt_fails configured refuses_recipients []
            [job_ab; job_c]) as Hall.
  { cbn. repeat split; discriminate. }
  split; [exact Hall |].
  destruct (failed_deliveries_are_dropped configured refuses_recipients
              [job_ab; job_c] initial 3 (fun _ => Hall))
    as (st1 & st2 & Henq & Hrun & Hq & Hrest); [simpl; lia |].
  injection Henq as <-. cbn [credentials_set configured] in Hrest.
  destruct Hrest as (_ & Hs & es & _ & He).
  exists st2. split; [exact Hrun |]. split; [exact Hq |].
  split; [exact Hs |]. by exists es.
Defined.

(** ** Further properties of the convenience senders *)

Lemma add_effect settings to subj msg st :
  exists st',
    add settings to subj msg st = (Ret tt, st')
    /\ calls st' = calls st /\ table st' = table st
    /\ if truthy (API_SMTP_HOST settings) then
         queue st' = queue st ++
           [{| to_emails := to; subject := subj; message := msg |}]
         /\ log st' = log st
       else queue st' = queue st /\ log st' = log st ++ [host_warning].
Proof.
  unfold add. destruct (truthy (API_SMTP_HOST settings)); simpl;
    eexists; (split; [reflexivity |]); simpl; repeat split; reflexivity.
Qed.

(** What a sender that first formats and then calls [add] does. *)
Lemma formatted_sender_effect settings template kwargs to subj st :
  match (message ← lift (format template kwargs);
         add settings [to] subj message) st with
  | (Ret _, st') =>
      calls st' = calls st /\ table st' = table st
      /\ if truthy (API_SMTP_HOST settings) then
           (exists msg,
              queue st' = queue st ++
                [{| to_emails := [to]; subject := subj; message := msg |}])
           /\ log st' = log st
         else queue st' = queue st /\ log st' = log st ++ [host_warning]
  | (_, st') => st' = st
  end.
Proof.
  rewrite bind_run. unfold lift.
  destruct (format template kwargs) as [msg | e |]; [| done | done].
  destruct (add_effect settings [to] subj msg st)
    as (st' & -> & Hc & Ht & Hq).
  split; [exact Hc |]. split; [exact Ht |].
  destruct (truthy _); [| exact Hq].
  destruct Hq as [Hq Hl]. split; [by exists msg | exact Hl].
Qed.

Lemma convenience_senders_queue_one_job_aux settings c st :
  match dispatch settings c st with
  | (Ret _, st') =>
      calls st' = calls st /\ table st' = table st
      /\ if truthy (API_SMTP_HOST settings) then
           (exists msg,
              queue st' = queue st ++
                [{| to_emails := [recipient c]; subject := subject_of settings c;
                    message := msg |}])
           /\ log st' = log st
         else queue st' = queue st /\ log st' = log st ++ [host_warning]
  | (_, st') => st' = st
  end.
Proof.
  destruct c; simpl;
    try apply formatted_sender_effect;
    match goal with |- context [?sender settings ?to st] =>
      unfold sender;
      match goal with |- context [add settings [to] ?subj ?msg st] =>
        destruct (add_effect settings [to] subj msg st)
          as (st' & -> & Hc & Ht & Hq)
      end
    end;
    (split; [exact Hc |]); (split; [exact Ht |]);
    (destruct (truthy _); [| exact Hq]);
    destruct Hq as [Hq Hl]; (split; [by eexists | exact Hl]).
Qed.


(** X8: on a working transport with the three SMTP settings present, a
    notification queued by a convenience sender into an empty buffer is
    delivered by the next drain cycle in a single [sendmail] call,
    addressed to the one address the sender was called for. *)
Theorem convenience_sender_sends_one_mail settings tr c st st1 fuel :
  credentials_set settings = true -> working tr ->
  queue st = [] -> (1 < fuel)%nat ->
  dispatch settings c st = (Ret tt, st1) ->
  exists st2 msg,
    handler settings tr fuel st1 = (Ret tt, st2)
    /\ queue st2 = []
    /\ calls st2
       = calls st ++ opening_calls settings ++
         [sendmail (API_SMTP_SENDER settings) [recipient c]
            (mail_to_send settings (recipient c) (subject_of settings c) msg)].
Proof.
  intros Hcred Hw Hempty Hfuel Hrun.
  pose proof (convenience_senders_queue_one_job_aux settings c st) as Hc.
  rewrite Hrun in Hc. destruct Hc as (Hcalls & _ & Hq).
  assert (truthy (API_SMTP_HOST settings) = true) as Hhost.
  { unfold credentials_set in Hcred.
    by destruct (truthy (API_SMTP_HOST settings)). }
  rewrite Hhost in Hq. destruct Hq as [[msg Hq] _].
  rewrite Hempty in Hq. simpl in Hq.
  eexists. exists msg.
  split; [apply handler_unroll; rewrite Hq; simpl; lia |].
  split; [reflexivity |]. simpl.
  rewrite foldl_delivered_working by done. rewrite Hq. simpl.
  by rewrite Hcalls.
Qed.

Lemma well_formed_by_check template :
  forallb (fun it => match it with Malformed _ => false | _ => true end)
    (markup Text template) = true ->
  well_formed template.
Proof.
  intros Hall msg Hin. rewrite forallb_forall in Hall.
  by specialize (Hall _ Hin).
Qed.

Lemma supplied_by_check template (kwargs : gmap string pyval) :
  forallb (fun it => match it with
                     | Replacement name => bool_decide (is_Some (kwargs !! name))
                     | _ => true
                     end)
    (markup Text template) = true ->
  forall name, refers_to template name -> is_Some (kwargs !! name).
Proof.
  intros Hall name Hin. rewrite forallb_forall in Hall.
  specialize (Hall _ Hin). by apply bool_decide_eq_true in Hall.
Qed.

Lemma group_quota_alert_keywords group_name usage_percent quota_minutes
    used_minutes remaining_minutes :
  keywords_only
    (group_quota_alert_kwargs group_name usage_percent quota_minutes
       used_minutes remaining_minutes).
Proof. apply keywords_only_list. by repeat constructor. Qed.

(** X9: [send_new_user_created] and [send_group_quota_alert] format their
    template before [add] is entered, like the other two formatting
    senders: a field of the template that the sender does not supply
    makes the call raise with nothing enqueued or logged, and with a well
    formed template whose fields are all supplied the call is [add] with
    a message in which every substituted value occurs. *)
Theorem other_senders_fail_loudly_or_render_all settings to_email username
    group_name usage_percent quota_minutes used_minutes remaining_minutes :
  plain (tpl_message (NOTIFICATION_MAIL_NEW_USER_CREATED settings)) ->
  plain (tpl_message (NOTIFICATION_MAIL_GROUP_QUOTA_ALERT settings)) ->
  loud_or_complete
    (tpl_message (NOTIFICATION_MAIL_NEW_USER_CREATED settings))
    (list_to_map [("username", PyStr username)])
    (send_new_user_created settings to_email username)
    (add settings [to_email]
       (tpl_subject (NOTIFICATION_MAIL_NEW_USER_CREATED settings)))
  /\ loud_or_complete
       (tpl_message (NOTIFICATION_MAIL_GROUP_QUOTA_ALERT settings))
       (group_quota_alert_kwargs group_name usage_percent quota_minutes
          used_minutes remaining_minutes)
       (send_group_quota_alert settings to_email group_name usage_percent
          quota_minutes used_minutes remaining_minutes)
       (add settings [to_email]
          (tpl_subject (NOTIFICATION_MAIL_GROUP_QUOTA_ALERT settings))).
Proof.
  intros Hn Hg. split.
  - apply format_then_add; [exact Hn |].
    apply keywords_only_list. by repeat constructor.
  - apply format_then_add; [exact Hg | apply group_quota_alert_keywords].
Qed.

Lemma other_senders_fail_loudly_or_render_all_witness :
  exists message,
    occurs_in "alice" message
    /\ forall st,
         send_new_user_created configured "admin@example.org" "alice" st
         = add configured ["admin@example.org"] "New user" message st.
Proof.
  destruct (other_senders_fail_loudly_or_render_all configured
              "admin@example.org" "alice" "Team" 97 5000 4850 150)
    as [[_ Hcomplete] _];
    [by apply plain_by_check | by apply plain_by_check |].
  destruct Hcomplete as (message & _ & Hcall & Hocc).
  - by apply well_formed_by_check.
  - by apply supplied_by_check.
  - exists message. split; [| exact Hcall].
    apply (Hocc "username" (PyStr "alice")); [| reflexivity].
    unfold refers_to. vm_compute. tauto.
Defined.

(** ** Further properties of the status computation *)

Section StatusCount.

Import Healthcheck.

Variable now : Z.

Lemma count_online_filter items :
  (forall worker_id stats, (worker_id, stats) ∈ items ->
   exists b, online now stats = Ret b) ->
  forall online_count,
    count_online now items online_count
    = Ret (online_count +
           length (List.filter (fun p => is_online now (snd p)) items))%nat.
Proof.
  induction items as [| [worker_id stats] items IH]; intros Hdef acc; simpl.
  - f_equal. lia.
  - destruct (Hdef worker_id stats) as [b Hb]; [by left |].
    assert (forall w s, (w, s) ∈ items -> exists b, online now s = Ret b)
      as Hdef' by (intros w s Hin; apply (Hdef w s); by right).
    unfold is_online at 1. simpl. rewrite Hb. destruct b.
    + rewrite IH by done. simpl. f_equal. lia.
    + by rewrite IH.
Qed.

(** The answer of [get_status] when no report makes the loop raise. *)
Lemma get_status_run db_probe data :
  timestamped data ->
  get_status db_probe now data
  = Ret {| content :=
             {| backend := "ok";
                database := match db_probe with
                            | None => "ok"
                            | Some _ => "error"
                            end;
                workers :=
                  if (0 <? length (List.filter
                                     (fun p => is_online now (snd p))
                                     (map_to_list data)))%nat
                  then "ok" else "error";
                workers_online :=
                  length (List.filter (fun p => is_online now (snd p))
                            (map_to_list data)) |};
           status_code := match db_probe with
                          | None => 200
                          | Some _ => 503
                          end |}.
Proof.
  intros Hts. unfold get_status. rewrite count_online_filter.
  - simpl. by destruct db_probe.
  - intros w s Hin%elem_of_map_to_list. by eapply online_timestamped.
Qed.

(** X10: the HTTP status of [/status] follows the database probe alone:
    200 with database "ok" when the probe succeeds, 503 with database
    "error" when it raises, whatever the workers report, even if none is
    online; the backend field is always "ok". *)
Theorem status_code_follows_database db_probe data :
  timestamped data ->
  exists response,
    get_status db_probe now data = Ret response
    /\ backend (content response) = "ok"
    /\ (db_probe = None ->
        status_code response = 200%Z /\ database (content response) = "ok")
    /\ (db_probe <> None ->
        status_code response = 503%Z
        /\ database (content response) = "error").
Proof.
  intros Hts. eexists. split; [by apply get_status_run |]. simpl.
  split; [reflexivity |]. by destruct db_probe.
Qed.

(** X11: [workers_online] is the number of workers whose latest report
    is less than 120 time units old; it never exceeds the number of
    workers known, and a worker without any report is never counted. *)
Theorem workers_online_counts_online_workers db_probe data :
  timestamped data ->
  exists response,
    get_status db_probe now data = Ret response
    /\ workers_online (content response)
       = length (List.filter (fun p => is_online now (snd p))
                   (map_to_list data))
    /\ (workers_online (content response) <= size data)%nat
    /\ is_online now [] = false.
Proof.
  intros Hts. eexists. split; [by apply get_status_run |]. simpl.
  split; [reflexivity |]. split; [| reflexivity].
  rewrite <- length_map_to_list. apply List.filter_length_le.
Qed.

Lemma online_latest_only stats : online now (latest_only stats) = online now stats.
Proof.
  unfold online, latest_only.
  by destruct (last stats) as [latest |].
Qed.

Lemma is_online_latest_only stats :
  is_online now (latest_only stats) = is_online now stats.
Proof. unfold is_online. by rewrite online_latest_only. Qed.

Lemma timestamped_latest_only data :
  timestamped data -> timestamped (latest_only <$> data).
Proof.
  intros Hts w stats latest Hw Hlast.
  rewrite lookup_fmap in Hw.
  destruct (data !! w) as [stats0 |] eqn:Hw0; [| done].
  injection Hw as <-. apply (Hts w stats0 latest Hw0).
  unfold latest_only in Hlast. destruct (last stats0); [| done].
  simpl in Hlast. by injection Hlast as <-.
Qed.

(** X12: only the latest report of each worker matters for [/status]:
    cutting every history down to its latest report leaves the answer
    unchanged. *)
Theorem status_depends_on_latest_reports_only db_probe data :
  timestamped data ->
  get_status db_probe now (latest_only <$> data)
  = get_status db_probe now data
  /\ exists response, get_status db_probe now data = Ret response.
Proof.
  intros Hts. split; [| eexists; by apply get_status_run].
  rewrite !get_status_run by (try apply timestamped_latest_only; done).
  rewrite map_to_list_fmap.
  assert (forall l : list (string * list (gmap string json)),
            List.filter (fun p => is_online now (snd p))
              (prod_map id latest_only <$> l)
            = prod_map id latest_only
              <$> List.filter (fun p => is_online now (snd p)) l) as Hf.
  { induction l as [| [w s] l IH]; [done |]. rewrite fmap_cons. simpl.
    rewrite is_online_latest_only.
    destruct (is_online now s); simpl; by rewrite IH. }
  by rewrite Hf, length_fmap.
Qed.

End StatusCount.

(** ** Searching a string *)

Lemma prefix_app (needle hay : string) :
  String.prefix needle hay = true <-> exists after, hay = needle +:+ after.
Proof.
  revert hay. induction needle as [| c needle IH]; intros hay.
  - split; [intros _; by exists hay | by destruct hay].
  - destruct hay as [| d hay]; simpl.
    + split; [done | by intros [after Hafter]].
    + destruct (ascii_dec c d) as [-> | Hne].
      * rewrite IH. split; intros [after Hafter]; exists after.
        -- rewrite Hafter. reflexivity.
        -- change (String d hay = String d (needle +:+ after)) in Hafter.
           by injection Hafter.
      * split; [done |]. intros [after Hafter].
        change (String d hay = String c (needle +:+ after)) in Hafter.
        by injection Hafter as -> _.
Qed.

Lemma occursb_spec (needle hay : string) :
  occursb needle hay = true <-> occurs_in needle hay.
Proof.
  unfold occurs_in. induction hay as [| d hay IH].
  - cbn [occursb]. rewrite orb_false_r, prefix_app. split.
    + intros [after Hafter]. by exists EmptyString, after.
    + intros (before & after & Heq). destruct before; [by exists after |].
      discriminate Heq.
  - cbn [occursb]. rewrite orb_true_iff, prefix_app, IH. split.
    + intros [[after Hafter] | (before & after & Heq)].
      * by exists EmptyString, after.
      * exists (String d before), after. rewrite Heq. reflexivity.
    + intros (before & after & Heq). destruct before as [| c before].
      * left. by exists after.
      * right. exists before, after.
        change (String d hay = String c (before +:+ needle +:+ after)) in Heq.
        by injection Heq.
Qed.

(** ** Properties of the user router *)

Section UserRouter.

Import User.

Variable settings : Settings.
Variable collab : collaborators.

Lemma ubind_run {A B : Type} (m : U A) (f : A -> U B) s :
  (m ≫= f) s =
  match m s with
  | (Ret a, s') => f a s'
  | (Raise e, s') => (Raise e, s')
  | (Stuck, s') => (Stuck, s')
  end.
Proof. reflexivity. Qed.

Lemma liftM_then {B : Type} (m : M unit) (k : U B) s st' :
  m (notif s) = (Ret tt, st') ->
  (liftM m ;; k) s = k {| notif := st'; db_calls := db_calls s |}.
Proof. intros Hm. rewrite ubind_run. unfold liftM. by rewrite Hm. Qed.

Lemma liftM_raises {B : Type} (m : M unit) (k : U B) s e st' :
  m (notif s) = (Raise e, st') ->
  (liftM m ;; k) s = (Raise e, {| notif := st'; db_calls := db_calls s |}).
Proof. intros Hm. rewrite ubind_run. unfold liftM. by rewrite Hm. Qed.

Lemma add_with_host to subj msg st :
  truthy (API_SMTP_HOST settings) = true ->
  add settings to subj msg st
  = (Ret tt,
     set_queue (queue st ++
                [{| to_emails := to; subject := subj; message := msg |}]) st).
Proof. intros Hhost. unfold add. by rewrite Hhost. Qed.

Lemma add_without_host to subj msg st :
  truthy (API_SMTP_HOST settings) = false ->
  add settings to subj msg st
  = (Ret tt, set_log (log st ++ [host_warning]) st).
Proof. intros Hhost. unfold add. by rewrite Hhost. Qed.

Lemma formatted_add template kwargs to subj msg st :
  format template kwargs = Ret msg ->
  (message ← lift (format template kwargs); add settings to subj message) st
  = add settings to subj msg st.
Proof. intros Hf. rewrite bind_run. unfold lift. by rewrite Hf. Qed.

Lemma formatted_raises template kwargs to subj e st :
  format template kwargs = Raise e ->
  (message ← lift (format template kwargs); add settings to subj message) st
  = (Raise e, st).
Proof. intros Hf. rewrite bind_run. unfold lift. by rewrite Hf. Qed.

(** X13: [test_notifications] queues nothing unless it finds an address:
    a user dict without ["user_id"] makes it raise [KeyError] before any
    call into the database, and a user whose address is [None] or empty
    gets the 400 answer after the one lookup, with the notification
    system untouched. *)
Theorem test_notifications_needs_an_address user s :
  (user !! "user_id" = None ->
   test_notifications settings collab user s
   = (Raise (KeyError "user_id"), s))
  /\ (forall user_id address,
        user !! "user_id" = Some user_id ->
        email_of collab (db_calls s) user_id = Ret address ->
        truthy address = false ->
        test_notifications settings collab user s
        = (Ret {| content :=
                    Healthcheck.JDict
                      [("error",
                        Healthcheck.JStr "No email address configured")];
                  status_code := 400 |},
           {| notif := notif s;
              db_calls := db_calls s ++ [user_get_email user_id] |})).
Proof.
  split.
  - intros Hnone. unfold test_notifications, getitem. rewrite Hnone.
    reflexivity.
  - intros user_id address Hid Hmail Hfalsy.
    unfold test_notifications, getitem. rewrite Hid.
    rewrite ubind_run. simpl. rewrite ubind_run. unfold db.
    rewrite Hmail. simpl. by rewrite Hfalsy.
Qed.

Ltac run_sender H :=
  erewrite liftM_then;
  [| first
       [ apply H
       | unfold send_new_user_created, send_quota_alert,
           send_group_quota_alert, send_weekly_usage_report;
         erewrite formatted_add by eassumption; apply H ] ];
  cbn [notif db_calls].

Ltac enter_test_notifications Hid Hmail Htruthy :=
  unfold test_notifications, getitem; rewrite Hid;
  rewrite ubind_run; cbn [mret U_ret]; rewrite ubind_run; unfold db;
  rewrite Hmail; cbn [notif db_calls]; rewrite Htruthy; cbn [negb default].

(** X14: with an SMTP host, an address for the user and templates that
    format, [test_notifications] queues exactly ten jobs, one per sender
    in the order of the calls and each for that address alone, logs that
    it did, and answers with a count of 10; it makes one database lookup
    and no transport call. *)
Theorem test_notifications_queues_ten user s user_id address
    new_user quota group weekly :
  truthy (API_SMTP_HOST settings) = true ->
  user !! "user_id" = Some user_id ->
  email_of collab (db_calls s) user_id = Ret (Some address) ->
  truthy (Some address) = true ->
  format (tpl_message (NOTIFICATION_MAIL_NEW_USER_CREATED settings))
    (list_to_map
       [("username", PyStr (default "testuser" (user !! "username")))])
  = Ret new_user ->
  format (tpl_message (NOTIFICATION_MAIL_QUOTA_ALERT settings))
    (quota_alert_kwargs "Test Customer" 96 10 40000 38400 1600)
  = Ret quota ->
  format (tpl_message (NOTIFICATION_MAIL_GROUP_QUOTA_ALERT settings))
    (group_quota_alert_kwargs "Test Group" 97 5000 4850 150)
  = Ret group ->
  format (tpl_message (NOTIFICATION_MAIL_WEEKLY_USAGE_REPORT settings))
    (weekly_usage_report_kwargs "Test Customer" 25 142 8500 1200 10 "2.13"
       40000 31500 0)
  = Ret weekly ->
  exists s',
    test_notifications settings collab user s
    = (Ret (queued_response address), s')
    /\ queue (notif s')
       = queue (notif s)
         ++ test_jobs settings address new_user quota group weekly
    /\ log (notif s')
       = log (notif s)
         ++ [(INFO, "Test notifications queued for " +:+ address)]
    /\ calls (notif s') = calls (notif s)
    /\ db_calls s' = db_calls s ++ [user_get_email user_id].
Proof.
  intros Hhost Hid Hmail Htruthy Hn Hq Hg Hw.
  pose proof (fun to subj msg st => add_with_host to subj msg st Hhost) as H.
  enter_test_notifications Hid Hmail Htruthy.
  do 10 run_sender H.
  erewrite liftM_then by reflexivity.
  eexists. split; [reflexivity |]. cbn.
  split; [by rewrite <- !app_assoc |]. done.
Qed.

(** X15: without an SMTP host [test_notifications] still answers with a
    count of 10, although every one of the ten [add] calls only logged
    the warning and nothing was queued. *)
Theorem test_notifications_counts_ten_without_host user s user_id address
    new_user quota group weekly :
  truthy (API_SMTP_HOST settings) = false ->
  user !! "user_id" = Some user_id ->
  email_of collab (db_calls s) user_id = Ret (Some address) ->
  truthy (Some address) = true ->
  format (tpl_message (NOTIFICATION_MAIL_NEW_USER_CREATED settings))
    (list_to_map
       [("username", PyStr (default "testuser" (user !! "username")))])
  = Ret new_user ->
  format (tpl_message (NOTIFICATION_MAIL_QUOTA_ALERT settings))
    (quota_alert_kwargs "Test Customer" 96 10 40000 38400 1600)
  = Ret quota ->
  format (tpl_message (NOTIFICATION_MAIL_GROUP_QUOTA_ALERT settings))
    (group_quota_alert_kwargs "Test Group" 97 5000 4850 150)
  = Ret group ->
  format (tpl_message (NOTIFICATION_MAIL_WEEKLY_USAGE_REPORT settings))
    (weekly_usage_report_kwargs "Test Customer" 25 142 8500 1200 10 "2.13"
       40000 31500 0)
  = Ret weekly ->
  exists s',
    test_notifications settings collab user s
    = (Ret (queued_response address), s')
    /\ queue (notif s') = queue (notif s)
    /\ log (notif s')
       = log (notif s) ++ replicate 10 host_warning
         ++ [(INFO, "Test notifications queued for " +:+ address)].
Proof.
  intros Hhost Hid Hmail Htruthy Hn Hq Hg Hw.
  pose proof (fun to subj msg st => add_without_host to subj msg st Hhost)
    as H.
  enter_test_notifications Hid Hmail Htruthy.
  do 10 run_sender H.
  erewrite liftM_then by reflexivity.
  eexists. split; [reflexivity |]. cbn.
  split; [done |]. by rewrite <- !app_assoc.
Qed.

(** X16: an exception in one sender does not undo the earlier ones: if
    the new-user template fails to format, [test_notifications] raises
    that exception with the five notifications before it still queued
    and nothing logged. *)
Theorem test_notifications_keeps_earlier_jobs user s user_id address e :
  truthy (API_SMTP_HOST settings) = true ->
  user !! "user_id" = Some user_id ->
  email_of collab (db_calls s) user_id = Ret (Some address) ->
  truthy (Some address) = true ->
  format (tpl_message (NOTIFICATION_MAIL_NEW_USER_CREATED settings))
    (list_to_map
       [("username", PyStr (default "testuser" (user !! "username")))])
  = Raise e ->
  exists s',
    test_notifications settings collab user s = (Raise e, s')
    /\ queue (notif s')
       = queue (notif s) ++ take 5 (test_jobs settings address "" "" "" "")
    /\ log (notif s') = log (notif s).
Proof.
  intros Hhost Hid Hmail Htruthy Hn.
  pose proof (fun to subj msg st => add_with_host to subj msg st Hhost) as H.
  enter_test_notifications Hid Hmail Htruthy.
  do 5 run_sender H.
  erewrite liftM_raises
    by (unfold send_new_user_created; apply formatted_raises; exact Hn).
  eexists. split; [reflexivity |]. cbn.
  split; [by rewrite <- !app_assoc |]. done.
Qed.

(** X17: a [set_user_info] request makes at most one [user_update]
    call, whatever fields it carries, and never touches the notification
    queue or the transport.  If it answers, the status is 200 or 403, and
    403 is answered only to a password verification, which updates
    nothing. *)
Theorem set_user_info_updates_at_most_once item user s :
  exists r s',
    set_user_info collab item user s = (r, s')
    /\ (updates s <= updates s' <= S (updates s))%nat
    /\ queue (notif s') = queue (notif s)
    /\ calls (notif s') = calls (notif s)
    /\ match r with
       | Ret response =>
           status_code response = 200%Z
           \/ (status_code response = 403%Z
               /\ enabled (verify_password item) = true
               /\ updates s' = updates s)
       | _ => True
       end.
Proof.
  eexists. eexists. split; [apply surjective_pairing |].
  unfold updates, set_user_info, set_user_info_chain, call_user_update,
    call_validate, try_except_ValueError, getitem, db, liftM, logger, uraise,
    mbind, U_bind, mret, U_ret.
  repeat (case_match; simplify_eq; cbn [notif db_calls fst snd] in *);
    cbn [notif db_calls queue calls set_log status_code];
    rewrite ?List.filter_app, ?length_app; cbn [List.filter length];
    repeat split; try lia; auto.
Qed.

Lemma notifications_str_flag_names n :
  notifications_str n = flag_names (effective n).
Proof.
  unfold notifications_str, effective, flag_names.
  by destruct (enabled (notify_on_job n)), (enabled (notify_on_deletion n)),
    (enabled (notify_on_user n)), (enabled (notify_on_quota n)),
    (enabled (notify_on_weekly_report n)).
Qed.


End UserRouter.

(** ** Instances of the further properties *)

Lemma every_job_is_attempted_once_witness :
  exists st',
    handler configured flaky_transport 3 (set_queue [job_ab; job_c] initial)
    = (Ret tt, st')
    /\ queue st' = [] /\ sessions (calls st') = 2%nat
    /\ (length (errors (log st')) <= 2)%nat.
Proof.
  destruct (every_job_is_attempted_once configured flaky_transport
              (set_queue [job_ab; job_c] initial) 3)
    as (st' & Hrun & Hq & Hs & He); [reflexivity | simpl; lia |].
  exists st'. split; [exact Hrun |]. split; [exact Hq |].
  split; [exact Hs | exact He].
Defined.

Lemma adds_without_host_only_warn_witness :
  exists st1 st2,
    enqueue_all no_host [job_ab; job_c] initial = (Ret tt, st1)
    /\ queue st1 = []
    /\ log st1 = [host_warning; host_warning]
    /\ handler no_host slow_transport 1 st1 = (Ret tt, st2)
    /\ calls st2 = [].
Proof.
  destruct (adds_without_host_only_warn no_host slow_transport
              [job_ab; job_c] initial 1)
    as (st1 & st2 & H1 & Hq & Hl & H2 & _ & Hc & _);
    [reflexivity | simpl; lia |].
  by exists st1, st2.
Defined.

Lemma queue_and_ledger_are_independent_witness :
  exists st1 st2 b,
    add configured ["a@example.org"] "Hi" "Body" initial = (Ret tt, st1)
    /\ handler configured slow_transport 2 st1 = (Ret tt, st2)
    /\ table st2 = []
    /\ notification_sent_record_exists "u" "j" "done" st2 = (Ret b, st2).
Proof.
  destruct (queue_and_ledger_are_independent configured slow_transport
              ["a@example.org"] "Hi" "Body" "u" "j" "done" initial 0)
    as (st1 & st2 & st3 & b & H1 & H2 & _ & Ht & _ & Hb & _);
    [simpl; lia |].
  by exists st1, st2, b.
Defined.

Lemma convenience_sender_sends_one_mail_witness :
  exists st2 msg,
    handler configured slow_transport 2
      (snd (dispatch configured (new_user_created "a@example.org" "alice")
              initial))
    = (Ret tt, st2)
    /\ calls st2
       = opening_calls configured ++
         [sendmail "scribe@example.org" ["a@example.org"]
            (mail_to_send configured "a@example.org" "New user" msg)].
Proof.
  destruct (convenience_sender_sends_one_mail configured slow_transport
              (new_user_created "a@example.org" "alice") initial
              (snd (dispatch configured
                      (new_user_created "a@example.org" "alice") initial)) 2)
    as (st2 & msg & Hrun & _ & Hc);
    [reflexivity | exact slow_transport_working | reflexivity | lia
    | reflexivity |].
  by exists st2, msg.
Defined.

Lemma example_data_timestamped : Healthcheck.timestamped Healthcheck.example_data.
Proof.
  intros w stats latest Hw Hlast. unfold Healthcheck.example_data in Hw.
  apply lookup_insert_Some in Hw as [[_ <-] | [_ Hw]].
  - injection Hlast as <-. by eexists.
  - apply lookup_insert_Some in Hw as [[_ <-] | [_ Hw]]; [| done].
    injection Hlast as <-. by eexists.
Qed.

Lemma status_code_follows_database_witness :
  exists response,
    Healthcheck.get_status (Some (TransportError "connection lost")) 5000
      Healthcheck.example_data
    = Ret response
    /\ Healthcheck.status_code response = 503%Z.
Proof.
  destruct (status_code_follows_database 5000
              (Some (TransportError "connection lost"))
              Healthcheck.example_data example_data_timestamped)
    as (response & Hrun & _ & _ & Hdown).
  exists response. split; [exact Hrun |]. by apply Hdown.
Defined.

Lemma workers_online_counts_online_workers_witness :
  exists response,
    Healthcheck.get_status None 1000 Healthcheck.example_data = Ret response
    /\ Healthcheck.workers_online (Healthcheck.content response) = 1%nat.
Proof.
  destruct (workers_online_counts_online_workers 1000 None
              Healthcheck.example_data example_data_timestamped)
    as (response & Hrun & Hcount & _).
  exists response. split; [exact Hrun |]. rewrite Hcount. reflexivity.
Defined.

Lemma status_depends_on_latest_reports_only_witness :
  Healthcheck.get_status None 1000 (latest_only <$> Healthcheck.example_data)
  = Healthcheck.get_status None 1000 Healthcheck.example_data.
Proof.
  apply (status_depends_on_latest_reports_only 1000 None
           Healthcheck.example_data example_data_timestamped).
Defined.

Lemma test_notifications_queues_ten_witness :
  exists s',
    User.test_notifications configured
      (User.example_collaborators (Some "alice@example.org") true)
      User.example_user User.fresh
    = (Ret (User.queued_response "alice@example.org"), s')
    /\ length (queue (User.notif s')) = 10%nat.
Proof.
  destruct (test_notifications_queues_ten configured
              (User.example_collaborators (Some "alice@example.org") true)
              User.example_user User.fresh "u1" "alice@example.org"
              "User alice created."
              "Test Customer used 96% of 10 blocks: 38400 of 40000 minutes, 1600 left."
              "Hello."
              "Test Customer: 25 users, 2.13 blocks.")
    as (s' & Hrun & Hq & _); try reflexivity.
  exists s'. split; [exact Hrun |]. by rewrite Hq.
Defined.

Lemma test_notifications_counts_ten_without_host_witness :
  exists s',
    User.test_notifications no_host
      (User.example_collaborators (Some "alice@example.org") true)
      User.example_user User.fresh
    = (Ret (User.queued_response "alice@example.org"), s')
    /\ queue (User.notif s') = [].
Proof.
  destruct (test_notifications_counts_ten_without_host no_host
              (User.example_collaborators (Some "alice@example.org") true)
              User.example_user User.fresh "u1" "alice@example.org"
              "Hello." "Hello." "Hello." "Hello.")
    as (s' & Hrun & Hq & _); try reflexivity.
  exists s'. split; [exact Hrun | exact Hq].
Defined.

Lemma test_notifications_keeps_earlier_jobs_witness :
  exists s',
    User.test_notifications bad_new_user
      (User.example_collaborators (Some "alice@example.org") true)
      User.example_user User.fresh
    = (Raise (KeyError "name"), s')
    /\ length (queue (User.notif s')) = 5%nat.
Proof.
  destruct (test_notifications_keeps_earlier_jobs bad_new_user
              (User.example_collaborators (Some "alice@example.org") true)
              User.example_user User.fresh "u1" "alice@example.org"
              (KeyError "name"))
    as (s' & Hrun & Hq & _); try reflexivity.
  exists s'. split; [exact Hrun |]. by rewrite Hq.
Defined.

(** ** Properties of the database bootstrap *)

Section Bootstrap.

Import InitDb.

Lemma append_cons c (a b : string) : String c a +:+ b = String c (a +:+ b).
Proof. reflexivity. Qed.

Lemma slash_free_no_cut name :
  slash_free name = true -> before_last_slash name = None.
Proof.
  induction name as [| c name IH]; simpl; [done |].
  intros [Hc Hn]%andb_true_iff. rewrite (IH Hn).
  by destruct (Ascii.eqb c "/").
Qed.

Lemma before_last_slash_app prefix name :
  slash_free name = true ->
  before_last_slash (prefix +:+ "/" +:+ name) = Some prefix.
Proof.
  intros Hn. induction prefix as [| c prefix IH].
  - change (before_last_slash (String "/" name) = Some EmptyString).
    simpl. by rewrite (slash_free_no_cut name Hn).
  - rewrite append_cons. simpl. by rewrite IH.
Qed.

(** X19: the URL of the maintenance database is the database URL with
    whatever follows its last slash replaced by [postgres]; the cut is at
    the last slash of the whole URL, so also inside a query string. A
    URL without any slash gets [/postgres] appended. *)
Theorem server_url_cuts_at_last_slash prefix name :
  slash_free name = true ->
  server_url (prefix +:+ "/" +:+ name) = prefix +:+ "/postgres"
  /\ server_url name = name +:+ "/postgres".
Proof.
  intros Hn. unfold server_url, rsplit_first.
  by rewrite before_last_slash_app, slash_free_no_cut.
Qed.

Lemma server_url_cuts_at_last_slash_witness :
  server_url "postgresql://db.example.org/scribe?sslrootcert=/etc/ca.pem"
  = "postgresql://db.example.org/scribe?sslrootcert=/etc/postgres".
Proof.
  apply (server_url_cuts_at_last_slash
           "postgresql://db.example.org/scribe?sslrootcert=/etc" "ca.pem").
  reflexivity.
Defined.

Lemma lstrip_empty s : lstrip_slash s = "" <-> only_slashes s = true.
Proof.
  induction s as [| c s IH]; simpl; [done |].
  destruct (Ascii.eqb c "/"); simpl; [exact IH | done].
Qed.

Variable urlparse : string -> ParseResult.
Variable db : server.

(** X20: [create_database_if_needed] does nothing at all for a URL
    whose scheme does not start with [postgresql] or whose path has
    nothing but slashes; and it issues a [CREATE DATABASE] only after the
    lookup in [pg_database] found no row, and then for the path without
    its leading slashes, quoted as it is. *)
Theorem database_created_only_when_missing database_url h :
  (String.prefix "postgresql" (scheme (urlparse database_url)) = false
   \/ only_slashes (path (urlparse database_url)) = true ->
   create_database_if_needed urlparse db database_url h = (Ret tt, h))
  /\ (forall statement,
        called (execute statement)
        ∈ snd (create_database_if_needed urlparse db database_url h) ->
        called (execute statement) ∉ h ->
        statement
        = "CREATE DATABASE " +:+ dq +:+
          lstrip_slash (path (urlparse database_url)) +:+ dq
        /\ db (h ++ [called (create_engine (server_url database_url)
                               (Some "AUTOCOMMIT"));
                     called connect])
             (select_database (lstrip_slash (path (urlparse database_url))))
           = answered false).
Proof.
  unfold create_database_if_needed. split.
  - intros [Hscheme | Hpath].
    + by rewrite Hscheme.
    + destruct (String.prefix _ _); [| done]. simpl.
      apply lstrip_empty in Hpath. by rewrite Hpath.
  - intros statement.
    destruct (String.prefix _ _); simpl; [| done].
    destruct (String.eqb _ _); [done |].
    unfold ask, print, mbind, T_bind, mret, T_ret.
    repeat (case_match; simplify_eq; cbn [fst snd negb] in * ).
    all: rewrite <- ?app_assoc; cbn [app].
    all: rewrite ?elem_of_app, ?elem_of_cons, ?elem_of_nil.
    all: intros Hin Hnot.
    all: repeat match goal with
             | H : _ \/ _ |- _ => destruct H
             | H : False |- _ => destruct H
             | H : called _ = called _ |- _ => injection H as ->
             end.
    all: try done.
    all: match goal with
         | H : negb ?yes = true,
           Hs : db _ (select_database _) = answered ?yes |- _ =>
             destruct yes; [done |];
             rewrite <- app_assoc in Hs; by split
         end.
Qed.

Lemma create_database_outcome database_url h :
  exists h1,
    create_database_if_needed urlparse db database_url h = (Ret tt, h1)
    \/ exists e,
         create_database_if_needed urlparse db database_url h = (Raise e, h1).
Proof.
  unfold create_database_if_needed, ask, print, mbind, T_bind, mret, T_ret.
  repeat (case_match; simplify_eq; cbn [fst snd negb] in * );
    eexists; first [by left | right; by eexists].
Qed.

Lemma create_database_fine database_url h :
  (forall hist c, guarded c = false -> exists yes, db hist c = answered yes) ->
  exists h1,
    create_database_if_needed urlparse db database_url h = (Ret tt, h1).
Proof.
  intros Hfine.
  unfold create_database_if_needed, ask, print, mbind, T_bind, mret, T_ret.
  repeat (case_match; simplify_eq; cbn [fst snd negb] in * );
    try match goal with
        | H : db ?hist ?c = failed _ |- _ =>
            destruct (Hfine hist c eq_refl) as [? ?]; congruence
        end;
    by eexists.
Qed.

(** X21: [init_database] never lets an exception out: it either returns
    after printing that the tables were created, or prints what failed
    and exits with status 1. *)
Theorem init_database_completes_or_exits_1 database_url h :
  exists result h',
    init_database urlparse db database_url h = (Ret result, h')
    /\ match result with
       | completed =>
           last h' = Some (printed "Database tables created successfully!")
       | exited code =>
           code = 1%Z
           /\ exists e,
                last h'
                = Some (printed
                          ("Failed to initialize database: " +:+ str_exn e))
       end.
Proof.
  unfold init_database, try_except_T, print, mbind, T_bind, mret, T_ret.
  destruct (create_database_outcome database_url
              (h ++ [printed ("Connecting to database: " +:+ database_url)]))
    as [h1 [Hc | [e Hc]]]; rewrite Hc.
  - unfold ask.
    repeat (case_match; simplify_eq; cbn [fst snd negb] in * ).
    all: eexists _, _; (split; [reflexivity |]); cbn beta iota.
    all: rewrite ?last_snoc.
    all: first [done | split; [done | by eexists]].
  - eexists _, _. split; [reflexivity |]. cbn beta iota.
    rewrite last_snoc. split; [done | by eexists].
Qed.

(** X22: a schema that cannot be created does not stop the bootstrap:
    if no call other than the schema creation and its commit fails,
    [init_database] completes, and it has created the tables. *)
Theorem failed_schema_creation_is_skipped database_url h :
  (forall hist c, guarded c = false -> exists yes, db hist c = answered yes) ->
  exists h',
    init_database urlparse db database_url h = (Ret completed, h')
    /\ called create_all ∈ h'.
Proof.
  intros Hfine.
  unfold init_database, try_except_T, print, mbind, T_bind, mret, T_ret.
  destruct (create_database_fine database_url
              (h ++ [printed ("Connecting to database: " +:+ database_url)])
              Hfine)
    as [h1 Hc]; rewrite Hc.
  unfold ask.
  repeat (case_match; simplify_eq; cbn [fst snd negb] in * );
    try match goal with
        | H : db ?hist ?c = failed _ |- _ =>
            destruct (Hfine hist c eq_refl) as [? ?]; congruence
        end;
    eexists; (split; [reflexivity |]);
    rewrite !elem_of_app, !elem_of_cons; tauto.
Qed.

End Bootstrap.

Lemma failed_schema_creation_is_skipped_witness :
  exists h',
    InitDb.init_database InitDb.example_urlparse InitDb.example_server
      "postgresql://db.example.org/scribe" []
    = (Ret InitDb.completed, h')
    /\ InitDb.printed "Schema creation skipped: permission denied" ∈ h'.
Proof.
  destruct (failed_schema_creation_is_skipped InitDb.example_urlparse
              InitDb.example_server "postgresql://db.example.org/scribe" [])
    as (h' & Hrun & _).
  - intros hist c Hc. destruct c; try discriminate; by eexists.
  - exists h'. split; [exact Hrun |].
    injection Hrun as <-. vm_compute. set_solver.
Defined.
